(** * The AMCU JNI bridge (src/main/cpp/jni_amcu_template.cpp)

  A shallow embedding of the native bridge between the Java class
  [com.frc.amcu.AMCUWrapper] and the external [AMCU] motor-controller
  driver.  The bridge owns four file-level statics (the driver
  singleton, two callback slots and the JavaVM pointer); everything
  else -- the driver declared in amcu.h and the managed runtime behind
  jni.h -- is external and enters the development as an interface.

  Every call that crosses the boundary (into the driver or into the
  managed runtime) is recorded on a ghost trace, so that statements
  such as "performs no driver call" or "releases the reference exactly
  once" are statements about that trace. *)

From Stdlib Require Import ZArith List String Lia Bool.
Import ListNotations.
Local Open Scope Z_scope.

(** ** Fixed-width integers and the narrowing casts

  A [jint] is a 32-bit two's-complement integer, carried as a [Z].
  [static_cast] to a narrower integer type keeps the low bits: the
  unsigned result is the residue modulo [2^w], the signed result the
  residue shifted into [-2^(w-1) .. 2^(w-1)-1]. *)

Module Narrow.

Definition unsigned (w x : Z) : Z := x mod 2 ^ w.

Definition signed (w x : Z) : Z := (x + 2 ^ (w - 1)) mod 2 ^ w - 2 ^ (w - 1).

(** The bit pattern a [w]-bit value occupies: its low [w] bits. *)
Definition bits (w x : Z) : Z := Z.land x (Z.ones w).

End Narrow.

Definition to_uint8_t  (x : Z) : Z := Narrow.unsigned 8 x.
Definition to_uint16_t (x : Z) : Z := Narrow.unsigned 16 x.
Definition to_int8_t   (x : Z) : Z := Narrow.signed 8 x.
Definition to_jshort   (x : Z) : Z := Narrow.signed 16 x.
Definition to_jint     (x : Z) : Z := Narrow.signed 32 x.

Definition JNI_OK        : Z := 0.
Definition JNI_EDETACHED : Z := -2.
Definition JNI_EVERSION  : Z := -3.
Definition JNI_VERSION_1_6 : Z := 65542.   (* 0x00010006 *)

(** ** The driver interface (amcu.h, not part of the repository)

  One constructor per member function the bridge calls, carrying the
  arguments exactly as the bridge hands them over (after narrowing). *)

Inductive driver_call (Motor jfloat : Type) : Type :=
| initOmniDriveBase (wheelRadius robotRadius : Z) (motorLeft motorRight motorBack : Motor)
| initMecanumDriveBase (wheelRadius robotX robotY : Z)
  (motorFrontLeft motorFrontRight motorBackLeft motorBackRight : Motor)
| initDifferentialDriveBase2Wheel (wheelRadius wheelDistance : Z) (motorLeft motorRight : Motor)
| initDifferentialDriveBase4Wheel (wheelRadius wheelDistance : Z)
  (motorFrontLeft motorFrontRight motorBackLeft motorBackRight : Motor)
| setPID (kp ki kd : jfloat)
| setLimitSwitches (motor : Motor) (high enable mode bounce : Z)
| setRPM (motor : Motor) (rpm : Z)
| setSpeed (motor : Motor) (percent : Z)
| resetEncoder (motor : Motor)
| stop
| getEncoder (motor : Motor)
| getRPM (motor : Motor)
| speedDrive (xSpeed ySpeed wSpeed : Z)
| timeDrive (xSpeed ySpeed wSpeed timeS : Z)
| driveDistance (xMeter yMeter omegaDegree : Z).

Arguments initOmniDriveBase {Motor jfloat}.
Arguments initMecanumDriveBase {Motor jfloat}.
Arguments initDifferentialDriveBase2Wheel {Motor jfloat}.
Arguments initDifferentialDriveBase4Wheel {Motor jfloat}.
Arguments setPID {Motor jfloat}.
Arguments setLimitSwitches {Motor jfloat}.
Arguments setRPM {Motor jfloat}.
Arguments setSpeed {Motor jfloat}.
Arguments resetEncoder {Motor jfloat}.
Arguments stop {Motor jfloat}.
Arguments getEncoder {Motor jfloat}.
Arguments getRPM {Motor jfloat}.
Arguments speedDrive {Motor jfloat}.
Arguments timeDrive {Motor jfloat}.
Arguments driveDistance {Motor jfloat}.

(** The driver library.  [Motor] is the enumeration of amcu.h and
  [Motor_cast] the conversion [static_cast<Motor>(jint)]; [AMCU] is
  the state of one driver object, [AMCU_new] what [new AMCU()]
  builds, and [AMCU_invoke] runs one member function, giving the
  object's next state and the integer it returns (ignored for the
  [void] members).  Floating-point gains are handed over unchanged,
  so their type stays abstract. *)

Class AMCULib : Type := {
Motor : Type;
jfloat : Type;
AMCU : Type;
Motor_cast : Z -> Motor;
AMCU_new : AMCU;
AMCU_invoke : AMCU -> driver_call Motor jfloat -> AMCU * Z
}.

(** ** The managed runtime (jni.h)

  [VM] is the state of the managed runtime; each JNI function is a
  transition on it.  A C pointer that may be null is an [option].
  [GetEnv] gives its status code and the value it leaves in [*penv];
  [AttachCurrentThread] gives the value it writes to [*penv], or
  [None] when it fails and writes nothing.  The calling thread, an
  implicit input of the C functions, is an explicit argument. *)

Class JNIRuntime : Type := {
jobject : Type;
jclass : Type;
jmethodID : Type;
JNIEnv : Type;
JavaVM : Type;
thread : Type;
VM : Type;
GetEnv : VM -> JavaVM -> thread -> Z * option JNIEnv;
AttachCurrentThread : VM -> JavaVM -> thread -> VM * option JNIEnv;
NewGlobalRef : VM -> JNIEnv -> jobject -> VM * option jobject;
DeleteGlobalRef : VM -> JNIEnv -> jobject -> VM;
GetObjectClass : VM -> JNIEnv -> jobject -> VM * jclass;
GetMethodID : VM -> JNIEnv -> jclass -> string -> string -> VM * option jmethodID;
CallVoidMethod : VM -> JNIEnv -> jobject -> jmethodID -> VM
}.

(** ** Outcomes

  [Fault] is the dereference of a null pointer: the native code has no
  defined behaviour from there on and the process is lost.  The state
  at the fault is kept, so the trace up to it stays visible. *)

Inductive outcome (A : Type) : Type :=
| Ret (a : A)
| Fault.
Arguments Ret {A}.
Arguments Fault {A}.

Section Bridge.

Context {L : AMCULib} {R : JNIRuntime}.

(** ** Boundary events *)

Inductive jni_call : Type :=
| J_GetEnv (vm : JavaVM) (t : thread)
| J_AttachCurrentThread (vm : JavaVM) (t : thread)
| J_NewGlobalRef (o : jobject) (res : option jobject)
| J_DeleteGlobalRef (r : jobject)
| J_GetObjectClass (r : jobject)
| J_GetMethodID (c : jclass) (name sig : string)
| J_CallVoidMethod (r : jobject) (m : jmethodID).

Inductive event : Type :=
| EvNew                                        (* new AMCU() *)
| EvDriver (c : driver_call Motor jfloat)      (* g_amcu->... *)
| EvJni (j : jni_call).                        (* env->... / g_jvm->... *)

(** ** Bridge state: the four statics, the runtime and the trace *)

Record bridge : Type := mkBridge {
  g_amcu : option AMCU;
  g_limitSwitchCallback : option jobject;
  g_driveActionCallback : option jobject;
  g_jvm : option JavaVM;
  vm_state : VM;
  trace : list event
}.

(** What the statics hold when the library has just been loaded. *)
Definition loaded (v : VM) : bridge := mkBridge None None None None v [].

Definition set_g_amcu (x : option AMCU) (b : bridge) : bridge :=
  mkBridge x (g_limitSwitchCallback b) (g_driveActionCallback b) (g_jvm b)
           (vm_state b) (trace b).
Definition set_g_limitSwitchCallback (x : option jobject) (b : bridge) : bridge :=
  mkBridge (g_amcu b) x (g_driveActionCallback b) (g_jvm b) (vm_state b) (trace b).
Definition set_g_driveActionCallback (x : option jobject) (b : bridge) : bridge :=
  mkBridge (g_amcu b) (g_limitSwitchCallback b) x (g_jvm b) (vm_state b) (trace b).
Definition set_g_jvm (x : option JavaVM) (b : bridge) : bridge :=
  mkBridge (g_amcu b) (g_limitSwitchCallback b) (g_driveActionCallback b) x
           (vm_state b) (trace b).
Definition set_vm_state (x : VM) (b : bridge) : bridge :=
  mkBridge (g_amcu b) (g_limitSwitchCallback b) (g_driveActionCallback b) (g_jvm b)
           x (trace b).
Definition log (e : event) (b : bridge) : bridge :=
  mkBridge (g_amcu b) (g_limitSwitchCallback b) (g_driveActionCallback b) (g_jvm b)
           (vm_state b) (trace b ++ [e]).

(** ** The bridge monad: state passing with a fault *)

Definition M (A : Type) : Type := bridge -> outcome A * bridge.

Definition ret {A} (a : A) : M A := fun b => (Ret a, b).
Definition bind {A B} (m : M A) (k : A -> M B) : M B :=
  fun b => match m b with
           | (Ret a, b') => k a b'
           | (Fault, b') => (Fault, b')
           end.
Definition fault {A} : M A := fun b => (Fault, b).
Definition gets {A} (f : bridge -> A) : M A := fun b => (Ret (f b), b).
Definition modify (f : bridge -> bridge) : M unit := fun b => (Ret tt, f b).



Notation "x <- c ;; k" := (bind c (fun x => k))
  (at level 61, c at next level, right associativity).
Notation "c ;; k" := (bind c (fun _ => k))
  (at level 61, right associativity).

(** ** Primitive steps across the boundary *)

(** [new AMCU()], stored in [g_amcu]. *)
Definition new_AMCU : M unit :=
  modify (fun b => log EvNew (set_g_amcu (Some AMCU_new) b)).

(** [g_amcu->c]: a member call through the singleton pointer. *)
Definition amcu_call (c : driver_call Motor jfloat) : M Z :=
  fun b => match g_amcu b with
           | Some d => (Ret (snd (AMCU_invoke d c)),
                        log (EvDriver c) (set_g_amcu (Some (fst (AMCU_invoke d c))) b))
           | None => (Fault, b)
           end.

(** [p->...] on a possibly null [JNIEnv*]. *)
Definition deref (p : option JNIEnv) : M JNIEnv :=
  match p with
  | Some env => ret env
  | None => fault
  end.

Definition jvm_GetEnv (jvm : JavaVM) (t : thread) : M (Z * option JNIEnv) :=
  fun b => (Ret (GetEnv (vm_state b) jvm t), log (EvJni (J_GetEnv jvm t)) b).

Definition jvm_AttachCurrentThread (jvm : JavaVM) (t : thread) (env : option JNIEnv)
  : M (option JNIEnv) :=
  fun b => let a := AttachCurrentThread (vm_state b) jvm t in
           (Ret (match snd a with Some e => Some e | None => env end),
            log (EvJni (J_AttachCurrentThread jvm t)) (set_vm_state (fst a) b)).

Definition env_NewGlobalRef (env : JNIEnv) (o : jobject) : M (option jobject) :=
  fun b => let a := NewGlobalRef (vm_state b) env o in
           (Ret (snd a), log (EvJni (J_NewGlobalRef o (snd a))) (set_vm_state (fst a) b)).

Definition env_DeleteGlobalRef (env : JNIEnv) (r : jobject) : M unit :=
  fun b => (Ret tt, log (EvJni (J_DeleteGlobalRef r))
                        (set_vm_state (DeleteGlobalRef (vm_state b) env r) b)).

Definition env_GetObjectClass (env : JNIEnv) (r : jobject) : M jclass :=
  fun b => let a := GetObjectClass (vm_state b) env r in
           (Ret (snd a), log (EvJni (J_GetObjectClass r)) (set_vm_state (fst a) b)).

Definition env_GetMethodID (env : JNIEnv) (c : jclass) (name sig : string)
  : M (option jmethodID) :=
  fun b => let a := GetMethodID (vm_state b) env c name sig in
           (Ret (snd a), log (EvJni (J_GetMethodID c name sig)) (set_vm_state (fst a) b)).

Definition env_CallVoidMethod (env : JNIEnv) (r : jobject) (m : jmethodID) : M unit :=
  fun b => (Ret tt, log (EvJni (J_CallVoidMethod r m))
                        (set_vm_state (CallVoidMethod (vm_state b) env r m) b)).

(** ** The functions of jni_amcu_template.cpp *)

(** Helper to attach the current thread and get its [JNIEnv*]. *)
Definition getJNIEnv (t : thread) : M (option JNIEnv) :=
  jvm <- gets g_jvm ;;
  match jvm with
  | Some vm =>
      re <- jvm_GetEnv vm t ;;
      if fst re =? JNI_EDETACHED
      then jvm_AttachCurrentThread vm t (snd re)
      else ret (snd re)
  | None => ret None
  end.

Definition JNI_OnLoad (vm : option JavaVM) : M Z :=
  modify (set_g_jvm vm) ;;
  ret JNI_VERSION_1_6.

(** [if (!g_amcu) g_amcu = new AMCU();] *)
Definition ensure_amcu : M unit :=
  a <- gets g_amcu ;;
  match a with
  | None => new_AMCU
  | Some _ => ret tt
  end.

(** [if (g_amcu) g_amcu->c;] *)
Definition when_amcu (c : driver_call Motor jfloat) : M unit :=
  a <- gets g_amcu ;;
  match a with
  | Some _ => amcu_call c ;; ret tt
  | None => ret tt
  end.

Definition Java_com_frc_amcu_AMCUWrapper_initOmniDriveBaseNative
    (wheelRadius robotRadius motorLeft motorRight motorBack : Z) : M unit :=
  ensure_amcu ;;
  amcu_call (initOmniDriveBase (to_uint8_t wheelRadius) (to_uint16_t robotRadius)
               (Motor_cast motorLeft) (Motor_cast motorRight) (Motor_cast motorBack)) ;;
  ret tt.

Definition Java_com_frc_amcu_AMCUWrapper_initMecanumDriveBaseNative
    (wheelRadius robotX robotY
     motorFrontLeft motorFrontRight motorBackLeft motorBackRight : Z) : M unit :=
  ensure_amcu ;;
  amcu_call (initMecanumDriveBase (to_uint8_t wheelRadius)
               (to_uint16_t robotX) (to_uint16_t robotY)
               (Motor_cast motorFrontLeft) (Motor_cast motorFrontRight)
               (Motor_cast motorBackLeft) (Motor_cast motorBackRight)) ;;
  ret tt.

Definition Java_com_frc_amcu_AMCUWrapper_initDifferentialDriveBase2WheelNative
    (wheelRadius wheelDistance motorLeft motorRight : Z) : M unit :=
  ensure_amcu ;;
  amcu_call (initDifferentialDriveBase2Wheel (to_uint8_t wheelRadius)
               (to_uint16_t wheelDistance)
               (Motor_cast motorLeft) (Motor_cast motorRight)) ;;
  ret tt.

Definition Java_com_frc_amcu_AMCUWrapper_initDifferentialDriveBase4WheelNative
    (wheelRadius wheelDistance
     motorFrontLeft motorFrontRight motorBackLeft motorBackRight : Z) : M unit :=
  ensure_amcu ;;
  amcu_call (initDifferentialDriveBase4Wheel (to_uint8_t wheelRadius)
               (to_uint16_t wheelDistance)
               (Motor_cast motorFrontLeft) (Motor_cast motorFrontRight)
               (Motor_cast motorBackLeft) (Motor_cast motorBackRight)) ;;
  ret tt.

Definition Java_com_frc_amcu_AMCUWrapper_setPIDNative (kp ki kd : jfloat) : M unit :=
  when_amcu (setPID kp ki kd).

Definition Java_com_frc_amcu_AMCUWrapper_setLimitSwitchesNative
    (motor high enable mode bounce : Z) : M unit :=
  when_amcu (setLimitSwitches (Motor_cast motor) (to_uint8_t high) (to_uint8_t enable)
               (to_uint8_t mode) (to_uint8_t bounce)).

Definition Java_com_frc_amcu_AMCUWrapper_setRPMNative (motor rpm : Z) : M unit :=
  when_amcu (setRPM (Motor_cast motor) (to_int8_t rpm)).

Definition Java_com_frc_amcu_AMCUWrapper_setSpeedNative (motor percent : Z) : M unit :=
  when_amcu (setSpeed (Motor_cast motor) (to_int8_t percent)).

Definition Java_com_frc_amcu_AMCUWrapper_resetEncoderNative (motor : Z) : M unit :=
  when_amcu (resetEncoder (Motor_cast motor)).

Definition Java_com_frc_amcu_AMCUWrapper_stopNative : M unit :=
  when_amcu stop.

Definition Java_com_frc_amcu_AMCUWrapper_getEncoderNative (motor : Z) : M Z :=
  a <- gets g_amcu ;;
  match a with
  | Some _ => r <- amcu_call (getEncoder (Motor_cast motor)) ;; ret (to_jshort r)
  | None => ret 0
  end.

Definition Java_com_frc_amcu_AMCUWrapper_getRPMNative (motor : Z) : M Z :=
  a <- gets g_amcu ;;
  match a with
  | Some _ => r <- amcu_call (getRPM (Motor_cast motor)) ;; ret (to_jint r)
  | None => ret 0
  end.

Definition Java_com_frc_amcu_AMCUWrapper_registerLimitSwitchCallbackNative
    (env : JNIEnv) (callback : option jobject) : M unit :=
  old <- gets g_limitSwitchCallback ;;
  match old with
  | Some r => env_DeleteGlobalRef env r ;; modify (set_g_limitSwitchCallback None)
  | None => ret tt
  end ;;
  match callback with
  | Some o => r <- env_NewGlobalRef env o ;; modify (set_g_limitSwitchCallback r)
  | None => ret tt
  end.

Definition notifyLimitSwitchTriggered (t : thread) : M unit :=
  cb <- gets g_limitSwitchCallback ;;
  jvm <- gets g_jvm ;;
  match cb, jvm with
  | Some r, Some _ =>
      penv <- getJNIEnv t ;;
      env <- deref penv ;;
      cbClass <- env_GetObjectClass env r ;;
      mid <- env_GetMethodID env cbClass "onLimitSwitchTriggered" "()V" ;;
      match mid with
      | Some m => env_CallVoidMethod env r m
      | None => ret tt
      end
  | _, _ => ret tt
  end.

Definition Java_com_frc_amcu_AMCUWrapper_registerDriveActionCallbackNative
    (env : JNIEnv) (callback : option jobject) : M unit :=
  old <- gets g_driveActionCallback ;;
  match old with
  | Some r => env_DeleteGlobalRef env r ;; modify (set_g_driveActionCallback None)
  | None => ret tt
  end ;;
  match callback with
  | Some o => r <- env_NewGlobalRef env o ;; modify (set_g_driveActionCallback r)
  | None => ret tt
  end.

Definition notifyDriveAction (t : thread) : M unit :=
  cb <- gets g_driveActionCallback ;;
  jvm <- gets g_jvm ;;
  match cb, jvm with
  | Some r, Some _ =>
      penv <- getJNIEnv t ;;
      env <- deref penv ;;
      cbClass <- env_GetObjectClass env r ;;
      mid <- env_GetMethodID env cbClass "onDriveAction" "()V" ;;
      match mid with
      | Some m => env_CallVoidMethod env r m
      | None => ret tt
      end
  | _, _ => ret tt
  end.

Definition Java_com_frc_amcu_AMCUWrapper_speedDriveNative
    (xSpeed ySpeed wSpeed : Z) : M unit :=
  when_amcu (speedDrive (to_uint8_t xSpeed) (to_uint8_t ySpeed) (to_uint8_t wSpeed)).

Definition Java_com_frc_amcu_AMCUWrapper_timeDriveNative
    (xSpeed ySpeed wSpeed timeS : Z) : M unit :=
  when_amcu (timeDrive (to_uint8_t xSpeed) (to_uint8_t ySpeed) (to_uint8_t wSpeed)
               (to_uint8_t timeS)).

Definition Java_com_frc_amcu_AMCUWrapper_driveDistanceNative
    (xMeter yMeter omegaDegree : Z) : M unit :=
  when_amcu (driveDistance (to_uint8_t xMeter) (to_uint8_t yMeter)
               (to_uint16_t omegaDegree)).

(** ** Entry points as operations

    One constructor per function of the file, so that histories of
    calls can be run and reasoned about.  [run] gives the value the
    function returns to its caller ([None] for [void]). *)

Inductive op : Type :=
| OnLoad (vm : option JavaVM)
| InitOmniDriveBase (wheelRadius robotRadius motorLeft motorRight motorBack : Z)
| InitMecanumDriveBase (wheelRadius robotX robotY
    motorFrontLeft motorFrontRight motorBackLeft motorBackRight : Z)
| InitDifferentialDriveBase2Wheel (wheelRadius wheelDistance motorLeft motorRight : Z)
| InitDifferentialDriveBase4Wheel (wheelRadius wheelDistance
    motorFrontLeft motorFrontRight motorBackLeft motorBackRight : Z)
| SetPID (kp ki kd : jfloat)
| SetLimitSwitches (motor high enable mode bounce : Z)
| SetRPM (motor rpm : Z)
| SetSpeed (motor percent : Z)
| ResetEncoder (motor : Z)
| Stop
| GetEncoder (motor : Z)
| GetRPM (motor : Z)
| RegisterLimitSwitchCallback (env : JNIEnv) (callback : option jobject)
| NotifyLimitSwitchTriggered (t : thread)
| RegisterDriveActionCallback (env : JNIEnv) (callback : option jobject)
| NotifyDriveAction (t : thread)
| SpeedDrive (xSpeed ySpeed wSpeed : Z)
| TimeDrive (xSpeed ySpeed wSpeed timeS : Z)
| DriveDistance (xMeter yMeter omegaDegree : Z).

Definition void (m : M unit) : M (option Z) := m ;; ret None.
Definition value (m : M Z) : M (option Z) := z <- m ;; ret (Some z).

Definition run (o : op) : M (option Z) :=
  match o with
  | OnLoad vm => value (JNI_OnLoad vm)
  | InitOmniDriveBase a b c d e =>
      void (Java_com_frc_amcu_AMCUWrapper_initOmniDriveBaseNative a b c d e)
  | InitMecanumDriveBase a b c d e f g =>
      void (Java_com_frc_amcu_AMCUWrapper_initMecanumDriveBaseNative a b c d e f g)
  | InitDifferentialDriveBase2Wheel a b c d =>
      void (Java_com_frc_amcu_AMCUWrapper_initDifferentialDriveBase2WheelNative a b c d)
  | InitDifferentialDriveBase4Wheel a b c d e f =>
      void (Java_com_frc_amcu_AMCUWrapper_initDifferentialDriveBase4WheelNative a b c d e f)
  | SetPID kp ki kd => void (Java_com_frc_amcu_AMCUWrapper_setPIDNative kp ki kd)
  | SetLimitSwitches a b c d e =>
      void (Java_com_frc_amcu_AMCUWrapper_setLimitSwitchesNative a b c d e)
  | SetRPM a b => void (Java_com_frc_amcu_AMCUWrapper_setRPMNative a b)
  | SetSpeed a b => void (Java_com_frc_amcu_AMCUWrapper_setSpeedNative a b)
  | ResetEncoder a => void (Java_com_frc_amcu_AMCUWrapper_resetEncoderNative a)
  | Stop => void Java_com_frc_amcu_AMCUWrapper_stopNative
  | GetEncoder a => value (Java_com_frc_amcu_AMCUWrapper_getEncoderNative a)
  | GetRPM a => value (Java_com_frc_amcu_AMCUWrapper_getRPMNative a)
  | RegisterLimitSwitchCallback env cb =>
      void (Java_com_frc_amcu_AMCUWrapper_registerLimitSwitchCallbackNative env cb)
  | NotifyLimitSwitchTriggered t => void (notifyLimitSwitchTriggered t)
  | RegisterDriveActionCallback env cb =>
      void (Java_com_frc_amcu_AMCUWrapper_registerDriveActionCallbackNative env cb)
  | NotifyDriveAction t => void (notifyDriveAction t)
  | SpeedDrive a b c => void (Java_com_frc_amcu_AMCUWrapper_speedDriveNative a b c)
  | TimeDrive a b c d => void (Java_com_frc_amcu_AMCUWrapper_timeDriveNative a b c d)
  | DriveDistance a b c => void (Java_com_frc_amcu_AMCUWrapper_driveDistanceNative a b c)
  end.

(** A history of calls; a fault ends it. *)
Fixpoint run_all (os : list op) : M unit :=
  match os with
  | [] => ret tt
  | o :: os' => run o ;; run_all os'
  end.

(** The states the bridge can be in: those some history of calls
    leads to from the freshly loaded library. *)
Definition reachable (b : bridge) : Prop :=
  exists (v : VM) (os : list op), b = snd (run_all os (loaded v)).

(** *** Classification of the entry points *)

Definition is_initializer (o : op) : bool :=
  match o with
  | InitOmniDriveBase _ _ _ _ _ | InitMecanumDriveBase _ _ _ _ _ _ _
  | InitDifferentialDriveBase2Wheel _ _ _ _
  | InitDifferentialDriveBase4Wheel _ _ _ _ _ _ => true
  | _ => false
  end.

(** The entry points that return a reading of the driver. *)
Definition is_read (o : op) : bool :=
  match o with
  | GetEncoder _ | GetRPM _ => true
  | _ => false
  end.

(** The entry points that only forward to the driver. *)
Definition is_delegate (o : op) : bool :=
  match o with
  | SetPID _ _ _ | SetLimitSwitches _ _ _ _ _ | SetRPM _ _ | SetSpeed _ _
  | ResetEncoder _ | Stop | GetEncoder _ | GetRPM _
  | SpeedDrive _ _ _ | TimeDrive _ _ _ _ | DriveDistance _ _ _ => true
  | _ => false
  end.

(** *** Reading the trace *)

Definition is_driver_event (e : event) : bool :=
  match e with
  | EvNew | EvDriver _ => true
  | EvJni _ => false
  end.

Definition is_construction (e : event) : bool :=
  match e with
  | EvNew => true
  | _ => false
  end.

Definition is_jni_event (e : event) : bool :=
  match e with
  | EvJni _ => true
  | _ => false
  end.

(** What reached the driver: constructions and member calls. *)
Definition driver_events (tr : list event) : list event := filter is_driver_event tr.

(** How many driver objects were ever constructed. *)
Definition constructions (tr : list event) : nat := List.length (filter is_construction tr).

(** The events one run of [m] adds to the trace of [b]. *)
Definition emitted {A} (m : M A) (b : bridge) : list event :=
  skipn (List.length (trace b)) (trace (snd (m b))).

(** *** The two callback slots, uniformly *)

Inductive slot : Type :=
| LimitSwitch      (* g_limitSwitchCallback *)
| DriveAction.     (* g_driveActionCallback *)

Definition other (s : slot) : slot :=
  match s with
  | LimitSwitch => DriveAction
  | DriveAction => LimitSwitch
  end.

Definition callback_in (s : slot) (b : bridge) : option jobject :=
  match s with
  | LimitSwitch => g_limitSwitchCallback b
  | DriveAction => g_driveActionCallback b
  end.

Definition register (s : slot) (env : JNIEnv) (callback : option jobject) : M unit :=
  match s with
  | LimitSwitch =>
      Java_com_frc_amcu_AMCUWrapper_registerLimitSwitchCallbackNative env callback
  | DriveAction =>
      Java_com_frc_amcu_AMCUWrapper_registerDriveActionCallbackNative env callback
  end.

Definition notify (s : slot) (t : thread) : M unit :=
  match s with
  | LimitSwitch => notifyLimitSwitchTriggered t
  | DriveAction => notifyDriveAction t
  end.

(** The calls that put a listener into slot [s]. *)
Definition installs (s : slot) (o : op) : bool :=
  match s, o with
  | LimitSwitch, RegisterLimitSwitchCallback _ (Some _) => true
  | DriveAction, RegisterDriveActionCallback _ (Some _) => true
  | _, _ => false
  end.

(** The member calls that configure a drive-base topology. *)
Definition configures (c : driver_call Motor jfloat) : bool :=
  match c with
  | initOmniDriveBase _ _ _ _ _ | initMecanumDriveBase _ _ _ _ _ _ _
  | initDifferentialDriveBase2Wheel _ _ _ _
  | initDifferentialDriveBase4Wheel _ _ _ _ _ _ => true
  | _ => false
  end.

(** The references handed back to the runtime, in order. *)
Definition released (tr : list event) : list jobject :=
  flat_map (fun e => match e with
                     | EvJni (J_DeleteGlobalRef r) => [r]
                     | _ => []
                     end) tr.

(** The global references obtained from the runtime, in order. *)
Definition acquired (tr : list event) : list jobject :=
  flat_map (fun e => match e with
                     | EvJni (J_NewGlobalRef _ (Some r)) => [r]
                     | _ => []
                     end) tr.

(** The managed methods invoked, in order. *)
Definition invoked (tr : list event) : list (jobject * jmethodID) :=
  flat_map (fun e => match e with
                     | EvJni (J_CallVoidMethod r m) => [(r, m)]
                     | _ => []
                     end) tr.

(** The references the two slots hold. *)
Definition held (b : bridge) : list jobject :=
  match g_limitSwitchCallback b with Some r => [r] | None => [] end ++
  match g_driveActionCallback b with Some r => [r] | None => [] end.

(** The runtime state a registration leaves once it has released what
    slot [s] held. *)
Definition vm_after_release (s : slot) (env : JNIEnv) (b : bridge) : VM :=
  match callback_in s b with
  | Some r => DeleteGlobalRef (vm_state b) env r
  | None => vm_state b
  end.

(** The two registration entry points. *)
Definition is_registration (o : op) : bool :=
  match o with
  | RegisterLimitSwitchCallback _ _ | RegisterDriveActionCallback _ _ => true
  | _ => false
  end.

(** The events that obtain or release a global reference. *)
Definition is_ref_event (e : event) : bool :=
  match e with
  | EvJni (J_NewGlobalRef _ _) | EvJni (J_DeleteGlobalRef _) => true
  | _ => false
  end.

(** How many elements of [l] fall in the class [p]. *)
Definition count {A} (p : A -> bool) (l : list A) : nat := List.length (filter p l).

(** Reference accounting: in every class of references, as many were
    obtained as were released or are still held by a slot.  Nothing
    obtained is lost (no leak) and nothing is released that was not
    obtained or was released before (no double release). *)
Definition balanced (b : bridge) : Prop :=
  forall p : jobject -> bool,
    count p (acquired (trace b)) =
    (count p (released (trace b)) + count p (held b))%nat.

(** The two delivery functions. *)
Definition is_notifier (o : op) : bool :=
  match o with
  | NotifyLimitSwitchTriggered _ | NotifyDriveAction _ => true
  | _ => false
  end.

(** The name under which each notifier looks up the listener's method. *)
Definition listener_method (s : slot) : string :=
  match s with
  | LimitSwitch => "onLimitSwitchTriggered"
  | DriveAction => "onDriveAction"
  end.

(** The reference a slot holds, as a list. *)
Definition slot_refs (s : slot) (b : bridge) : list jobject :=
  match callback_in s b with
  | Some r => [r]
  | None => []
  end.

(** The member calls on a trace: everything but the constructions. *)
Definition member_calls (tr : list event) : list event :=
  filter (fun e => negb (is_construction e)) tr.

(** *** Frame conditions on computations *)

(** [m] never changes the component [f] of the bridge. *)
Definition keeps {A X} (f : bridge -> X) (m : M A) : Prop :=
  forall b, f (snd (m b)) = f b.

(** [m] only extends the trace, and only by events that satisfy [P]. *)
Definition appends {A} (P : event -> bool) (m : M A) : Prop :=
  forall b, exists l, trace (snd (m b)) = trace b ++ l /\ forallb P l = true.

(** The singleton invariant: as many constructions as live driver objects. *)
Definition one_driver (b : bridge) : Prop :=
  constructions (trace b) = match g_amcu b with Some _ => 1%nat | None => 0%nat end.

(** *** The end-to-end scenario of the specification *)

Definition scenario : M Z :=
  Java_com_frc_amcu_AMCUWrapper_initDifferentialDriveBase2WheelNative 5 30 1 2 ;;
  Java_com_frc_amcu_AMCUWrapper_setSpeedNative 1 50 ;;
  Java_com_frc_amcu_AMCUWrapper_getEncoderNative 1.

End Bridge.

Arguments bridge : clear implicits.
Arguments bridge {L R}.

(** ** A simulated driver and runtime

  A concrete instance of both interfaces, used to run the bridge on
  explicit inputs.  The driver records the calls it receives and
  reads zero everywhere; the runtime keeps the list of live global
  references and knows three kinds of native thread. *)

Module Sim.

#[export] Instance driver : AMCULib := {|
  Motor := Z;
  jfloat := Z;
  AMCU := list (driver_call Z Z);
  Motor_cast := fun m => m;
  AMCU_new := [];
  AMCU_invoke := fun d c => (c :: d, 0)
|}.

Inductive sim_thread : Type :=
| Attached        (* GetEnv succeeds *)
| Detached        (* GetEnv reports JNI_EDETACHED, attaching succeeds *)
| Unattachable.   (* GetEnv reports JNI_EDETACHED, attaching fails *)

Fixpoint drop_ref (r : Z) (live : list Z) : list Z :=
  match live with
  | [] => []
  | x :: live' => if x =? r then live' else x :: drop_ref r live'
  end.

#[export] Instance runtime : JNIRuntime := {|
  jobject := Z;
  jclass := Z;
  jmethodID := Z;
  JNIEnv := unit;
  JavaVM := unit;
  thread := sim_thread;
  VM := list Z;
  GetEnv := fun _ _ t =>
    match t with
    | Attached => (JNI_OK, Some tt)
    | _ => (JNI_EDETACHED, None)
    end;
  AttachCurrentThread := fun v _ t =>
    match t with
    | Unattachable => (v, None)
    | _ => (v, Some tt)
    end;
  NewGlobalRef := fun v _ o => (o :: v, Some o);
  DeleteGlobalRef := fun v _ r => drop_ref r v;
  GetObjectClass := fun v _ o => (v, o);
  GetMethodID := fun v _ c _ _ => (v, if 0 <=? c then Some 1 else None);
  CallVoidMethod := fun v _ _ _ => v
|}.

(** Freshly loaded, nothing initialised. *)
Definition fresh : bridge := loaded [].

(** Driver constructed, a listener in each slot, runtime known. *)
Definition busy : bridge :=
  mkBridge (Some []) (Some 7) (Some 8) (Some tt) [8; 7] [].

End Sim.

(** A runtime whose table of global references is full: it behaves as
    the simulated one but hands out no new global reference. *)

Module SimFull.

Definition runtime : JNIRuntime := {|
  jobject := Z;
  jclass := Z;
  jmethodID := Z;
  JNIEnv := unit;
  JavaVM := unit;
  thread := Sim.sim_thread;
  VM := list Z;
  GetEnv := fun _ _ t =>
    match t with
    | Sim.Attached => (JNI_OK, Some tt)
    | _ => (JNI_EDETACHED, None)
    end;
  AttachCurrentThread := fun v _ t =>
    match t with
    | Sim.Unattachable => (v, None)
    | _ => (v, Some tt)
    end;
  NewGlobalRef := fun v _ _ => (v, None);
  DeleteGlobalRef := fun v _ r => Sim.drop_ref r v;
  GetObjectClass := fun v _ o => (v, o);
  GetMethodID := fun v _ c _ _ => (v, if 0 <=? c then Some 1 else None);
  CallVoidMethod := fun v _ _ _ => v
|}.

(** A listener held in the limit-switch slot, registered earlier. *)
Definition holding : @bridge Sim.driver runtime :=
  @mkBridge Sim.driver runtime (Some []) (Some 7) None (Some tt) [7] [].

End SimFull.

(** * Properties of the bridge *)

Section BridgeFacts.

Context {L : AMCULib} {R : JNIRuntime}.

(** ** Stepping through the monad *)

Ltac unfold_entry :=
  unfold run, void, value, scenario, register, notify,
    Java_com_frc_amcu_AMCUWrapper_initOmniDriveBaseNative,
    Java_com_frc_amcu_AMCUWrapper_initMecanumDriveBaseNative,
    Java_com_frc_amcu_AMCUWrapper_initDifferentialDriveBase2WheelNative,
    Java_com_frc_amcu_AMCUWrapper_initDifferentialDriveBase4WheelNative,
    Java_com_frc_amcu_AMCUWrapper_setPIDNative,
    Java_com_frc_amcu_AMCUWrapper_setLimitSwitchesNative,
    Java_com_frc_amcu_AMCUWrapper_setRPMNative,
    Java_com_frc_amcu_AMCUWrapper_setSpeedNative,
    Java_com_frc_amcu_AMCUWrapper_resetEncoderNative,
    Java_com_frc_amcu_AMCUWrapper_stopNative,
    Java_com_frc_amcu_AMCUWrapper_getEncoderNative,
    Java_com_frc_amcu_AMCUWrapper_getRPMNative,
    Java_com_frc_amcu_AMCUWrapper_registerLimitSwitchCallbackNative,
    Java_com_frc_amcu_AMCUWrapper_registerDriveActionCallbackNative,
    Java_com_frc_amcu_AMCUWrapper_speedDriveNative,
    Java_com_frc_amcu_AMCUWrapper_timeDriveNative,
    Java_com_frc_amcu_AMCUWrapper_driveDistanceNative,
    notifyLimitSwitchTriggered, notifyDriveAction, JNI_OnLoad.

Ltac unfold_monad :=
  unfold when_amcu, ensure_amcu, new_AMCU, amcu_call, getJNIEnv, deref,
    jvm_GetEnv, jvm_AttachCurrentThread, env_NewGlobalRef, env_DeleteGlobalRef,
    env_GetObjectClass, env_GetMethodID, env_CallVoidMethod,
    bind, ret, fault, gets, modify.

Ltac step := unfold_entry; unfold_monad; cbn.

Lemma skipn_own_length {A} (l l' : list A) : skipn (List.length l) (l ++ l') = l'.
Proof. induction l as [|x l IH]; [reflexivity | exact IH]. Qed.

Lemma skipn_all_own {A} (l : list A) : skipn (List.length l) l = [].
Proof. induction l as [|x l IH]; [reflexivity | exact IH]. Qed.

(** A computation that leaves the bridge untouched emits nothing. *)
Lemma emitted_unchanged {A} (m : M A) (b : bridge) :
  snd (m b) = b -> emitted m b = [].
Proof. intros E. unfold emitted. rewrite E. apply skipn_all_own. Qed.

(** ** Callback delivery with an empty slot *)

(** Both notifiers return at their first test when the slot is null. *)
Lemma notify_without_listener_state (s : slot) (t : thread) (b : bridge) :
  callback_in s b = None ->
  notify s t b = (Ret tt, b) /\ emitted (notify s t) b = [].
Proof.
  intros E.
  assert (H : notify s t b = (Ret tt, b)).
  { destruct s; cbn in E; step; rewrite E; reflexivity. }
  split; [exact H | apply emitted_unchanged; rewrite H; reflexivity].
Qed.

(** C5: for each of the two notifier functions, when no listener is
    registered in its slot the delivery returns normally and leaves the
    whole bridge state (statics, runtime, trace) as it was; it makes no
    call into the managed runtime, not even the thread lookup. *)
Theorem notify_without_listener (s : slot) (t : thread) (b : bridge) :
  callback_in s b = None ->
  notify s t b = (Ret tt, b) /\ emitted (notify s t) b = [].
Proof. exact (notify_without_listener_state s t b). Qed.

(** ** Frame lemmas *)

Lemma keeps_ret {A X} (f : bridge -> X) (a : A) : keeps f (ret a).
Proof. intros b. reflexivity. Qed.

Lemma keeps_fault {A X} (f : bridge -> X) : keeps f (@fault _ _ A).
Proof. intros b. reflexivity. Qed.

Lemma keeps_gets {A X} (f : bridge -> X) (g : bridge -> A) : keeps f (gets g).
Proof. intros b. reflexivity. Qed.

Lemma keeps_bind {A B X} (f : bridge -> X) (m : M A) (k : A -> M B) :
  keeps f m -> (forall a, keeps f (k a)) -> keeps f (bind m k).
Proof.
  intros Hm Hk b. unfold bind.
  specialize (Hm b). destruct (m b) as [[a|] b1]; cbn in *.
  - rewrite Hk. exact Hm.
  - exact Hm.
Qed.

Lemma appends_ret {A} P (a : A) : appends P (ret a).
Proof. intros b. exists []. rewrite app_nil_r. split; reflexivity. Qed.

Lemma appends_fault {A} P : appends P (@fault _ _ A).
Proof. intros b. exists []. rewrite app_nil_r. split; reflexivity. Qed.

Lemma appends_gets {A} P (g : bridge -> A) : appends P (gets g).
Proof. intros b. exists []. rewrite app_nil_r. split; reflexivity. Qed.

Lemma appends_bind {A B} P (m : M A) (k : A -> M B) :
  appends P m -> (forall a, appends P (k a)) -> appends P (bind m k).
Proof.
  intros Hm Hk b. unfold bind.
  destruct (Hm b) as [l [El Pl]]. destruct (m b) as [[a|] b1]; cbn in *.
  - destruct (Hk a b1) as [l' [El' Pl']].
    exists (l ++ l'). rewrite El', El, app_assoc. split; [reflexivity|].
    rewrite forallb_app, Pl, Pl'. reflexivity.
  - exists l. split; assumption.
Qed.

Lemma appends_emitted {A} P (m : M A) (b : bridge) :
  appends P m ->
  trace (snd (m b)) = trace b ++ emitted m b /\ forallb P (emitted m b) = true.
Proof.
  intros H. destruct (H b) as [l [El Pl]]. unfold emitted.
  rewrite El, skipn_own_length. split; [reflexivity | exact Pl].
Qed.

Lemma jni_not_driver (l : list event) :
  forallb is_jni_event l = true -> driver_events l = [] /\ constructions l = 0%nat.
Proof.
  induction l as [|e l IH]; [split; reflexivity|].
  cbn. intros H. apply andb_true_iff in H. destruct H as [He Hl].
  destruct (IH Hl) as [I1 I2]. unfold driver_events, constructions in *.
  destruct e; try discriminate He; cbn; split; assumption.
Qed.

Ltac split_cases :=
  repeat match goal with
         | |- context [match ?x with _ => _ end] => destruct x eqn:?
         | |- context [if ?x then _ else _] => destruct x eqn:?
         end.

Ltac prim_keeps :=
  let b := fresh "b" in
  intros b; unfold_monad; cbn; split_cases; reflexivity.

Ltac prim_appends :=
  let b := fresh "b" in
  intros b; unfold_monad; cbn; split_cases; cbn;
  first [ eexists; split; [reflexivity | reflexivity]
        | exists []; rewrite app_nil_r; split; reflexivity ].

Ltac frame :=
  unfold_entry; unfold getJNIEnv, deref, when_amcu, ensure_amcu;
  repeat first
    [ apply keeps_ret | apply keeps_gets | apply keeps_fault
    | apply appends_ret | apply appends_gets | apply appends_fault
    | apply keeps_bind; [|intros ?]
    | apply appends_bind; [|intros ?]
    | match goal with
      | |- keeps _ (match ?x with _ => _ end) => destruct x
      | |- appends _ (match ?x with _ => _ end) => destruct x
      | |- keeps _ (if ?x then _ else _) => destruct x
      | |- appends _ (if ?x then _ else _) => destruct x
      end
    | solve [prim_keeps]
    | solve [prim_appends] ].

(** ** The callback functions stay on the runtime side *)

Lemma register_keeps_driver s env cb : keeps g_amcu (register s env cb).
Proof. destruct s; frame. Qed.

Lemma register_keeps_jvm s env cb : keeps g_jvm (register s env cb).
Proof. destruct s; frame. Qed.

Lemma register_keeps_other s env cb : keeps (callback_in (other s)) (register s env cb).
Proof. destruct s; frame. Qed.

Lemma register_appends_jni s env cb : appends is_jni_event (register s env cb).
Proof. destruct s; frame. Qed.

Lemma notify_keeps_driver s t : keeps g_amcu (notify s t).
Proof. destruct s; frame. Qed.

Lemma notify_keeps_slot s s' t : keeps (callback_in s') (notify s t).
Proof. destruct s, s'; frame. Qed.

Lemma notify_appends_jni s t : appends is_jni_event (notify s t).
Proof. destruct s; frame. Qed.

(** The entry points that are neither initializers nor forwarders
    (load hook, registration, delivery) never reach the driver. *)
Lemma runtime_side_frame (o : op) :
  is_initializer o = false -> is_delegate o = false ->
  keeps g_amcu (run o) /\ appends is_jni_event (run o).
Proof.
  intros NI ND. destruct o; try discriminate NI; try discriminate ND; clear NI ND.
  - split; frame.
  - split; unfold run, void.
    + apply keeps_bind; [apply (register_keeps_driver LimitSwitch) | intros; apply keeps_ret].
    + apply appends_bind; [apply (register_appends_jni LimitSwitch) | intros; apply appends_ret].
  - split; unfold run, void.
    + apply keeps_bind; [apply (notify_keeps_driver LimitSwitch) | intros; apply keeps_ret].
    + apply appends_bind; [apply (notify_appends_jni LimitSwitch) | intros; apply appends_ret].
  - split; unfold run, void.
    + apply keeps_bind; [apply (register_keeps_driver DriveAction) | intros; apply keeps_ret].
    + apply appends_bind; [apply (register_appends_jni DriveAction) | intros; apply appends_ret].
  - split; unfold run, void.
    + apply keeps_bind; [apply (notify_keeps_driver DriveAction) | intros; apply keeps_ret].
    + apply appends_bind; [apply (notify_appends_jni DriveAction) | intros; apply appends_ret].
Qed.

(** The forwarders test [g_amcu] first and fall through when it is null. *)
Lemma delegate_absent (o : op) (b : bridge) :
  g_amcu b = None -> is_delegate o = true ->
  run o b = (Ret (if is_read o then Some 0 else None), b).
Proof.
  intros E D. destruct o; try discriminate D; step; rewrite E; reflexivity.
Qed.

(** ** Before the driver exists *)

(** C1: with the driver singleton absent, every entry point other than
    the four initializers leaves it absent and sends nothing to the driver
    (no construction, no member call); the entry points that only forward
    to the driver change nothing at all, and the two reads (encoder, RPM)
    return zero. *)
Theorem uninitialised_driver_noop (o : op) (b : bridge) :
  g_amcu b = None ->
  is_initializer o = false ->
  g_amcu (snd (run o b)) = None
  /\ driver_events (emitted (run o) b) = []
  /\ (is_delegate o = true ->
      run o b = (Ret (if is_read o then Some 0 else None), b)).
Proof.
  intros E NI. destruct (is_delegate o) eqn:D.
  - pose proof (delegate_absent o b E D) as H.
    rewrite H. cbn. repeat split; try assumption.
    rewrite emitted_unchanged; [reflexivity | rewrite H; reflexivity].
  - destruct (runtime_side_frame o NI D) as [K A].
    repeat split; try discriminate.
    + rewrite K. exact E.
    + apply jni_not_driver. apply (appends_emitted _ _ b A).
Qed.

(** ** The driver singleton *)

(** What an initializer does, whatever the state: construct if absent,
    then one configuring member call on the singleton. *)
Lemma initializer_effect (o : op) :
  is_initializer o = true ->
  exists c, configures c = true /\ forall b,
    run o b =
      (Ret None,
       match g_amcu b with
       | Some d => log (EvDriver c) (set_g_amcu (Some (fst (AMCU_invoke d c))) b)
       | None => log (EvDriver c)
                   (set_g_amcu (Some (fst (AMCU_invoke AMCU_new c)))
                      (log EvNew (set_g_amcu (Some AMCU_new) b)))
       end).
Proof.
  intros I. destruct o; try discriminate I; clear I.
  all: eexists; split;
    [ | intros b; destruct (g_amcu b) as [d|] eqn:E; step; rewrite E; cbn;
        rewrite ?E; reflexivity ].
  all: reflexivity.
Qed.

(** What a forwarder does once the driver exists: one member call, whose
    arguments depend on the arguments of the entry point alone. *)
Lemma delegate_present (o : op) :
  is_delegate o = true ->
  exists c, configures c = false /\ forall b d,
    g_amcu b = Some d ->
    snd (run o b) = log (EvDriver c) (set_g_amcu (Some (fst (AMCU_invoke d c))) b)
    /\ fst (run o b) <> Fault.
Proof.
  intros D. destruct o; try discriminate D; clear D.
  all: eexists; split;
    [ | intros b d E; step; rewrite E; cbn; rewrite ?E; cbn;
        split; [reflexivity | discriminate] ].
  all: reflexivity.
Qed.

#[local] Arguments constructions : simpl never.

Lemma constructions_app (l l' : list event) :
  constructions (l ++ l') = (constructions l + constructions l')%nat.
Proof. unfold constructions. rewrite filter_app, length_app. reflexivity. Qed.

(** Every entry point preserves the singleton invariant. *)
Lemma run_one_driver (o : op) (b : bridge) :
  one_driver b -> one_driver (snd (run o b)).
Proof.
  unfold one_driver. intros Inv.
  destruct (is_initializer o) eqn:I; [|destruct (is_delegate o) eqn:D].
  - destruct (initializer_effect o I) as [c [_ H]]. rewrite H. cbn.
    destruct (g_amcu b); cbn; rewrite ?constructions_app, Inv; reflexivity.
  - destruct (g_amcu b) as [d|] eqn:E.
    + destruct (delegate_present o D) as [c [_ H]].
      destruct (H b d E) as [H1 _]. rewrite H1. cbn.
      rewrite constructions_app, Inv. reflexivity.
    + rewrite (delegate_absent o b E D). cbn. rewrite E. exact Inv.
  - destruct (runtime_side_frame o I D) as [K A].
    destruct (appends_emitted _ _ b A) as [T P].
    rewrite T, K, constructions_app, Inv.
    destruct (jni_not_driver _ P) as [_ Z0]. rewrite Z0. apply Nat.add_0_r.
Qed.

Lemma run_all_one_driver (os : list op) (b : bridge) :
  one_driver b -> one_driver (snd (run_all os b)).
Proof.
  revert b. induction os as [|o os IH]; intros b Inv; [exact Inv|].
  cbn. unfold bind. pose proof (run_one_driver o b Inv) as H.
  destruct (run o b) as [[r|] b1]; cbn in *; [apply IH; exact H | exact H].
Qed.

Lemma reachable_one_driver (b : bridge) : reachable b -> one_driver b.
Proof.
  intros [v [os E]]. subst b. apply run_all_one_driver. reflexivity.
Qed.

(** C2: in every state the bridge can reach, an initializer of any
    topology returns normally and leaves exactly one driver object ever
    constructed; when the singleton already exists it constructs nothing
    and makes one configuring call on the existing object, and when the
    singleton is absent it constructs it once and then configures it. *)
Theorem initializer_keeps_singleton (o : op) (b : bridge) :
  reachable b ->
  is_initializer o = true ->
  fst (run o b) = Ret None
  /\ constructions (trace (snd (run o b))) = 1%nat
  /\ exists c, configures c = true /\
       match g_amcu b with
       | Some d => g_amcu (snd (run o b)) = Some (fst (AMCU_invoke d c))
                   /\ emitted (run o) b = [EvDriver c]
       | None => g_amcu (snd (run o b)) = Some (fst (AMCU_invoke AMCU_new c))
                 /\ emitted (run o) b = [EvNew; EvDriver c]
       end.
Proof.
  intros Rb I.
  pose proof (reachable_one_driver b Rb) as Inv.
  pose proof (run_one_driver o b Inv) as Inv'.
  destruct (initializer_effect o I) as [c [Cc H]].
  unfold emitted. unfold one_driver in Inv'. rewrite H in *. cbn in *.
  split; [reflexivity|]. split.
  - rewrite Inv'. destruct (g_amcu b); reflexivity.
  - exists c. split; [exact Cc|].
    destruct (g_amcu b); cbn; split; try reflexivity.
    + apply skipn_own_length.
    + rewrite <- app_assoc. apply skipn_own_length.
Qed.

(** ** Callback registration *)

(** C4: for each of the two slots, registering a non-null callback
    while the slot holds a reference [r] makes exactly two runtime calls,
    in this order: it releases [r] (once), then obtains a new global
    reference to the callback; the slot ends up holding that new
    reference. *)
Theorem register_replaces_once (s : slot) (env : JNIEnv) (o r : jobject) (b : bridge) :
  callback_in s b = Some r ->
  let fresh := NewGlobalRef (DeleteGlobalRef (vm_state b) env r) env o in
  fst (register s env (Some o) b) = Ret tt
  /\ emitted (register s env (Some o)) b =
       [EvJni (J_DeleteGlobalRef r); EvJni (J_NewGlobalRef o (snd fresh))]
  /\ released (emitted (register s env (Some o)) b) = [r]
  /\ callback_in s (snd (register s env (Some o) b)) = snd fresh
  /\ vm_state (snd (register s env (Some o) b)) = fst fresh.
Proof.
  intros E fresh. subst fresh.
  destruct s; cbn in E; unfold emitted; step; rewrite E; cbn;
    rewrite <- app_assoc, skipn_own_length; repeat split; reflexivity.
Qed.

(** What a registration leaves in its own slot, whatever the state. *)
Lemma register_result (s : slot) (env : JNIEnv) (cb : option jobject) (b : bridge) :
  fst (register s env cb b) = Ret tt
  /\ callback_in s (snd (register s env cb b)) =
       match cb with
       | Some o => snd (NewGlobalRef (vm_after_release s env b) env o)
       | None => None
       end.
Proof.
  unfold vm_after_release.
  destruct s, cb as [o|]; step.
  all: match goal with
       | |- context [match ?x with Some _ => _ | None => _ end] => destruct x eqn:E
       end; cbn; rewrite ?E; split; reflexivity.
Qed.

(** C10: in every bridge state, with or without a driver, registering
    or clearing a callback returns normally, sets its own slot (to the
    reference the runtime hands out, or to null when clearing), leaves the
    driver singleton and the runtime pointer as they were, sends nothing to
    the driver, and leaves the other slot unchanged. *)
Theorem registration_independent (s : slot) (env : JNIEnv) (cb : option jobject)
    (b : bridge) :
  fst (register s env cb b) = Ret tt
  /\ callback_in s (snd (register s env cb b)) =
       match cb with
       | Some o => snd (NewGlobalRef (vm_after_release s env b) env o)
       | None => None
       end
  /\ g_amcu (snd (register s env cb b)) = g_amcu b
  /\ driver_events (emitted (register s env cb) b) = []
  /\ callback_in (other s) (snd (register s env cb b)) = callback_in (other s) b.
Proof.
  destruct (register_result s env cb b) as [H1 H2].
  repeat split; try assumption.
  - apply register_keeps_driver.
  - apply jni_not_driver. apply (appends_emitted _ _ b (register_appends_jni s env cb)).
  - apply register_keeps_other.
Qed.

(** ** Reference accounting over whole histories *)

#[local] Arguments count : simpl never.

Lemma count_app {A} (p : A -> bool) (l l' : list A) :
  count p (l ++ l') = (count p l + count p l')%nat.
Proof. unfold count. rewrite filter_app, length_app. reflexivity. Qed.

Lemma count_nil {A} (p : A -> bool) : count p [] = 0%nat.
Proof. reflexivity. Qed.

#[local] Arguments acquired : simpl never.
#[local] Arguments released : simpl never.

Lemma acquired_app (l l' : list event) : acquired (l ++ l') = acquired l ++ acquired l'.
Proof. apply flat_map_app. Qed.

Lemma released_app (l l' : list event) : released (l ++ l') = released l ++ released l'.
Proof. apply flat_map_app. Qed.

Lemma no_ref_events (l : list event) :
  forallb (fun e => negb (is_ref_event e)) l = true ->
  acquired l = [] /\ released l = [].
Proof.
  induction l as [|e l IH]; [split; reflexivity|].
  cbn. intros H. apply andb_true_iff in H. destruct H as [He Hl].
  destruct (IH Hl) as [I1 I2].
  destruct e as [| c | j]; cbn; try (split; assumption).
  destruct j; try discriminate He; cbn; split; assumption.
Qed.

(** Only the two registration functions obtain or release references
    or write a slot. *)
Lemma unregistering_frame (o : op) :
  is_registration o = false ->
  keeps g_limitSwitchCallback (run o)
  /\ keeps g_driveActionCallback (run o)
  /\ appends (fun e => negb (is_ref_event e)) (run o).
Proof.
  intros NR. destruct o; try discriminate NR; repeat split; frame.
Qed.

Lemma register_balanced (s : slot) (env : JNIEnv) (cb : option jobject) (b : bridge) :
  balanced b -> balanced (snd (register s env cb b)).
Proof.
  unfold balanced, held. intros Inv p. specialize (Inv p).
  rewrite count_app in *. revert Inv.
  destruct (g_limitSwitchCallback b) as [r1|] eqn:E1;
    destruct (g_driveActionCallback b) as [r2|] eqn:E2;
    destruct cb as [o|]; destruct s; step; rewrite ?E1, ?E2; cbn; rewrite ?E1, ?E2;
    try match goal with
        | |- context [NewGlobalRef ?v ?e ?x] => destruct (snd (NewGlobalRef v e x))
        end;
    cbn; rewrite ?acquired_app, ?released_app, ?count_app;
    unfold acquired, released; cbn; rewrite ?count_nil; lia.
Qed.

(** Every entry point preserves the accounting. *)
Lemma run_balanced (o : op) (b : bridge) : balanced b -> balanced (snd (run o b)).
Proof.
  intros Inv. destruct (is_registration o) eqn:IR.
  - assert (E : exists s env cb, run o = void (register s env cb)).
    { destruct o; try discriminate IR.
      - exists LimitSwitch, env, callback; reflexivity.
      - exists DriveAction, env, callback; reflexivity. }
    destruct E as [s [env [cb E]]]. rewrite E. unfold void, bind, ret.
    pose proof (register_balanced s env cb b Inv) as H.
    destruct (register s env cb b) as [[u|] b1]; exact H.
  - destruct (unregistering_frame o IR) as [K1 [K2 A]].
    destruct (appends_emitted _ _ b A) as [T P].
    destruct (no_ref_events _ P) as [Z1 Z2].
    unfold balanced, held in *. intros p.
    rewrite T, K1, K2, acquired_app, released_app, Z1, Z2, !app_nil_r. apply Inv.
Qed.

Lemma run_all_balanced (os : list op) (b : bridge) :
  balanced b -> balanced (snd (run_all os b)).
Proof.
  revert b. induction os as [|o os IH]; intros b Inv; [exact Inv|].
  cbn. unfold bind. pose proof (run_balanced o b Inv) as H.
  destruct (run o b) as [[r|] b1]; cbn in *; [apply IH; exact H | exact H].
Qed.

(** In every state the bridge can reach, the references it obtained are
    exactly those it released once and those its two slots hold. *)
Lemma reachable_balanced (b : bridge) : reachable b -> balanced b.
Proof.
  intros [v [os E]]. subst b. apply run_all_balanced. intros p. reflexivity.
Qed.

(** ** A cleared slot stays silent *)

Lemma run_keeps_empty_slot (s : slot) (o : op) (b : bridge) :
  installs s o = false ->
  callback_in s b = None ->
  callback_in s (snd (run o b)) = None.
Proof.
  intros NI E.
  assert (K : keeps (callback_in s) (run o)
              \/ exists env, run o = void (register s env None)).
  { destruct s, o; try discriminate NI; try (left; frame; fail).
    all: destruct callback; [discriminate NI|]; right; eexists; reflexivity. }
  destruct K as [K | [env K]].
  - rewrite K. exact E.
  - rewrite K. unfold void, bind, ret.
    destruct (register_result s env None b) as [H1 H2].
    destruct (register s env None b) as [[u|] b1]; cbn in *; [exact H2 | discriminate H1].
Qed.

Lemma run_all_keeps_empty_slot (s : slot) (os : list op) (b : bridge) :
  forallb (fun o => negb (installs s o)) os = true ->
  callback_in s b = None ->
  callback_in s (snd (run_all os b)) = None.
Proof.
  revert b. induction os as [|o os IH]; intros b F E; [exact E|].
  cbn in F. apply andb_true_iff in F. destruct F as [Fo Fos].
  apply negb_true_iff in Fo.
  pose proof (run_keeps_empty_slot s o b Fo E) as H.
  cbn. unfold bind. destruct (run o b) as [[r|] b1]; cbn in *; [apply IH; assumption | exact H].
Qed.

(** C6: for each of the two slots, after a registration with a null
    callback the slot is empty and stays empty through every history of
    calls that does not register a non-null callback for that slot; in the
    state such a history leads to, event delivery for the slot returns
    normally, changes nothing and invokes no managed method. *)
Theorem cleared_slot_stays_silent (s : slot) (env : JNIEnv) (os : list op)
    (t : thread) (b : bridge) :
  forallb (fun o => negb (installs s o)) os = true ->
  let b1 := snd (bind (register s env None) (fun _ => run_all os) b) in
  callback_in s b1 = None
  /\ notify s t b1 = (Ret tt, b1)
  /\ invoked (emitted (notify s t) b1) = [].
Proof.
  intros F b1.
  assert (E : callback_in s b1 = None).
  { subst b1. unfold bind.
    destruct (register_result s env None b) as [H1 H2].
    destruct (register s env None b) as [[u|] b0]; cbn in *; [|discriminate H1].
    apply run_all_keeps_empty_slot; assumption. }
  destruct (notify_without_listener_state s t b1 E) as [N1 N2].
  repeat split; try assumption. rewrite N2. reflexivity.
Qed.

(** ** Callback delivery from a foreign thread *)

(** [getJNIEnv] gives a null environment when the thread is detached and
    cannot be attached. *)
Lemma getJNIEnv_attach_fails (t : thread) (b : bridge) (jvm : JavaVM) :
  g_jvm b = Some jvm ->
  GetEnv (vm_state b) jvm t = (JNI_EDETACHED, None) ->
  snd (AttachCurrentThread (vm_state b) jvm t) = None ->
  fst (getJNIEnv t b) = Ret None.
Proof.
  intros J G A. unfold getJNIEnv. unfold_monad. cbn.
  rewrite J. cbn. rewrite G. cbn. rewrite A. reflexivity.
Qed.

(** [getJNIEnv] also gives a null environment when [GetEnv] fails for
    another reason (such as JNI_EVERSION): no attachment is tried. *)
Lemma getJNIEnv_other_error (t : thread) (b : bridge) (jvm : JavaVM) (res : Z) :
  g_jvm b = Some jvm ->
  GetEnv (vm_state b) jvm t = (res, None) ->
  res <> JNI_EDETACHED ->
  getJNIEnv t b = (Ret None, log (EvJni (J_GetEnv jvm t)) b).
Proof.
  intros J G N. unfold getJNIEnv. unfold_monad. cbn.
  rewrite J. cbn. rewrite G. cbn.
  destruct (res =? JNI_EDETACHED) eqn:Q; [apply Z.eqb_eq in Q; contradiction | reflexivity].
Qed.

(** The notifiers use the environment without testing it. *)
Lemma notify_null_env_faults (s : slot) (t : thread) (b : bridge) (r : jobject)
    (jvm : JavaVM) :
  callback_in s b = Some r ->
  g_jvm b = Some jvm ->
  fst (getJNIEnv t b) = Ret None ->
  fst (notify s t b) = Fault
  /\ snd (notify s t b) = snd (getJNIEnv t b).
Proof.
  intros C J G.
  destruct s; cbn in C; unfold notify, notifyLimitSwitchTriggered, notifyDriveAction;
    unfold bind, gets; cbv beta iota; rewrite C, J; cbv beta iota;
    destruct (getJNIEnv t b) as [[[e|]|] b1]; cbn in G;
    try discriminate G; split; reflexivity.
Qed.

(** A listener without the expected method: the lookup fails and no
    managed method is invoked; the delivery returns normally. *)
Lemma notify_unresolved_method (s : slot) (t : thread) (b : bridge) (r : jobject)
    (jvm : JavaVM) (env : JNIEnv) :
  callback_in s b = Some r ->
  g_jvm b = Some jvm ->
  GetEnv (vm_state b) jvm t = (JNI_OK, Some env) ->
  (forall v c name sig, snd (GetMethodID v env c name sig) = None) ->
  fst (notify s t b) = Ret tt /\ invoked (emitted (notify s t) b) = [].
Proof.
  intros C J G NM.
  destruct s; cbn in C; unfold emitted; step;
    repeat (first [rewrite C | rewrite J | rewrite G | rewrite NM]; cbn);
    repeat rewrite <- app_assoc; rewrite skipn_own_length;
    split; reflexivity.
Qed.

(** A [GetEnv] failure other than JNI_EDETACHED ends the same way. *)
Lemma notify_faults_on_GetEnv_error (s : slot) (t : thread) (b : bridge)
    (r : jobject) (jvm : JavaVM) (res : Z) :
  callback_in s b = Some r ->
  g_jvm b = Some jvm ->
  GetEnv (vm_state b) jvm t = (res, None) ->
  res <> JNI_EDETACHED ->
  fst (notify s t b) = Fault.
Proof.
  intros C J G N. apply (notify_null_env_faults s t b r jvm C J).
  rewrite (getJNIEnv_other_error t b jvm res J G N). reflexivity.
Qed.

(** On an attached thread, with the method found, the listener is
    invoked exactly once. *)
Lemma notify_delivers (s : slot) (t : thread) (b : bridge) (r : jobject)
    (jvm : JavaVM) (env : JNIEnv) (m : jmethodID) :
  callback_in s b = Some r ->
  g_jvm b = Some jvm ->
  GetEnv (vm_state b) jvm t = (JNI_OK, Some env) ->
  (forall v c name sig, snd (GetMethodID v env c name sig) = Some m) ->
  fst (notify s t b) = Ret tt /\ invoked (emitted (notify s t) b) = [(r, m)].
Proof.
  intros C J G FM.
  destruct s; cbn in C; unfold emitted; step;
    repeat (first [rewrite C | rewrite J | rewrite G | rewrite FM]; cbn);
    repeat rewrite <- app_assoc; rewrite skipn_own_length;
    split; reflexivity.
Qed.

(** C3: the failure of thread attachment is not absorbed.  With a
    listener registered and the runtime known, when the calling thread is
    detached and cannot be attached, the notifier dereferences the null
    environment: the delivery ends in a fault, right after the two calls
    of the thread lookup. *)
Theorem notify_faults_when_attach_fails (s : slot) (t : thread) (b : bridge)
    (r : jobject) (jvm : JavaVM) :
  callback_in s b = Some r ->
  g_jvm b = Some jvm ->
  GetEnv (vm_state b) jvm t = (JNI_EDETACHED, None) ->
  snd (AttachCurrentThread (vm_state b) jvm t) = None ->
  fst (notify s t b) = Fault
  /\ emitted (notify s t) b =
       [EvJni (J_GetEnv jvm t); EvJni (J_AttachCurrentThread jvm t)].
Proof.
  intros C J G A.
  destruct (notify_null_env_faults s t b r jvm C J
              (getJNIEnv_attach_fails t b jvm J G A)) as [F S].
  split; [exact F|].
  unfold emitted. rewrite S. unfold getJNIEnv. unfold_monad. cbn.
  rewrite J. cbn. rewrite G. cbn.
  rewrite <- app_assoc. apply skipn_own_length.
Qed.

(** ** Narrowing of arguments *)

Lemma to_uint8_t_range (x : Z) : 0 <= to_uint8_t x < 256.
Proof. unfold to_uint8_t, Narrow.unsigned. change (2 ^ 8) with 256. apply Z.mod_pos_bound. lia. Qed.

Lemma to_int8_t_range (x : Z) : -128 <= to_int8_t x < 128.
Proof.
  unfold to_int8_t, Narrow.signed. change (2 ^ 8) with 256. change (2 ^ (8 - 1)) with 128.
  pose proof (Z.mod_pos_bound (x + 128) 256). lia.
Qed.

(** Both casts keep the low eight bits of their argument. *)
Lemma to_uint8_t_bits (x : Z) : Narrow.bits 8 (to_uint8_t x) = Narrow.bits 8 x.
Proof.
  unfold Narrow.bits, to_uint8_t, Narrow.unsigned.
  rewrite !Z.land_ones by lia. apply Z.mod_mod. discriminate.
Qed.

Lemma to_int8_t_bits (x : Z) : Narrow.bits 8 (to_int8_t x) = Narrow.bits 8 x.
Proof.
  unfold Narrow.bits, to_int8_t, Narrow.signed.
  rewrite !Z.land_ones by lia. change (2 ^ 8) with 256. change (2 ^ (8 - 1)) with 128.
  pose proof (Z.div_mod (x + 128) 256 ltac:(discriminate)) as H.
  replace ((x + 128) mod 256 - 128) with (x + (- ((x + 128) / 256)) * 256) by lia.
  apply Z.mod_add. discriminate.
Qed.

(** The unsigned cast is the signed one plus 256 on the negative half. *)
Lemma to_uint8_t_of_int8 (x : Z) :
  to_uint8_t x = if to_int8_t x <? 0 then to_int8_t x + 256 else to_int8_t x.
Proof.
  pose proof (to_int8_t_range x) as Hs. pose proof (to_uint8_t_range x) as Hu.
  pose proof (to_uint8_t_bits x) as Bu. pose proof (to_int8_t_bits x) as Bs.
  unfold Narrow.bits in Bu, Bs. rewrite !Z.land_ones in Bu, Bs by lia.
  change (2 ^ 8) with 256 in Bu, Bs.
  assert (E : to_uint8_t x mod 256 = to_int8_t x mod 256) by congruence.
  rewrite (Z.mod_small (to_uint8_t x) 256) in E by lia.
  destruct (to_int8_t x <? 0) eqn:Q.
  - apply Z.ltb_lt in Q. rewrite E.
    rewrite <- (Z.mod_add (to_int8_t x) 1 256) by discriminate.
    apply Z.mod_small. lia.
  - apply Z.ltb_ge in Q. rewrite E. apply Z.mod_small. lia.
Qed.

Lemma narrowing_at_the_boundaries :
  to_int8_t 127 = 127 /\ to_int8_t 128 = -128
  /\ to_int8_t (-128) = -128 /\ to_int8_t (-129) = 127
  /\ to_int8_t 2147483647 = -1 /\ to_int8_t (-2147483648) = 0
  /\ to_uint8_t 255 = 255 /\ to_uint8_t 256 = 0 /\ to_uint8_t (-1) = 255
  /\ to_uint16_t 65535 = 65535 /\ to_uint16_t 65536 = 0 /\ to_uint16_t (-1) = 65535.
Proof. repeat split; reflexivity. Qed.

(** C7 (amended): with the driver present, the open-loop drive and the
    duration-bounded drive each make one member call whose axis speeds
    (and time bound) are the arguments cast to [uint8_t]: the unsigned
    narrow value in 0..255.  That value has the same low eight bits as the
    signed narrow interpretation of the argument and coincides with it
    exactly when that interpretation is not negative. *)
Theorem axis_speeds_narrow_unsigned (xSpeed ySpeed wSpeed timeS : Z)
    (b : bridge) (d : AMCU) :
  g_amcu b = Some d ->
  emitted (Java_com_frc_amcu_AMCUWrapper_speedDriveNative xSpeed ySpeed wSpeed) b =
    [EvDriver (speedDrive (to_uint8_t xSpeed) (to_uint8_t ySpeed) (to_uint8_t wSpeed))]
  /\ emitted (Java_com_frc_amcu_AMCUWrapper_timeDriveNative xSpeed ySpeed wSpeed timeS) b =
    [EvDriver (timeDrive (to_uint8_t xSpeed) (to_uint8_t ySpeed) (to_uint8_t wSpeed)
                 (to_uint8_t timeS))]
  /\ forall v : Z,
       0 <= to_uint8_t v < 256
       /\ Narrow.bits 8 (to_uint8_t v) = Narrow.bits 8 (to_int8_t v)
       /\ (to_uint8_t v = to_int8_t v <-> 0 <= to_int8_t v).
Proof.
  intros E. split; [|split].
  - unfold emitted. step. rewrite E. cbn. rewrite E. cbn. apply skipn_own_length.
  - unfold emitted. step. rewrite E. cbn. rewrite E. cbn. apply skipn_own_length.
  - intros v. split; [apply to_uint8_t_range|]. split.
    + rewrite to_uint8_t_bits, to_int8_t_bits. reflexivity.
    + rewrite to_uint8_t_of_int8. destruct (to_int8_t v <? 0) eqn:Q.
      * apply Z.ltb_lt in Q. lia.
      * apply Z.ltb_ge in Q. lia.
Qed.

(** What reaches the driver from one call does not depend on the state
    the call is made in, as long as the driver exists. *)
Lemma driver_events_state_independent (o : op) (b1 b2 : bridge) :
  g_amcu b1 <> None -> g_amcu b2 <> None ->
  driver_events (emitted (run o) b1) = driver_events (emitted (run o) b2).
Proof.
  intros P1 P2.
  destruct (g_amcu b1) as [d1|] eqn:E1; [|contradiction].
  destruct (g_amcu b2) as [d2|] eqn:E2; [|contradiction].
  destruct (is_initializer o) eqn:I; [|destruct (is_delegate o) eqn:D].
  - destruct (initializer_effect o I) as [c [_ H]].
    unfold emitted. rewrite !H, E1, E2. cbn. rewrite !skipn_own_length. reflexivity.
  - destruct (delegate_present o D) as [c [_ H]].
    destruct (H b1 d1 E1) as [H1 _]. destruct (H b2 d2 E2) as [H2 _].
    unfold emitted. rewrite H1, H2. cbn. rewrite !skipn_own_length. reflexivity.
  - destruct (runtime_side_frame o I D) as [_ A].
    destruct (jni_not_driver _ (proj2 (appends_emitted _ _ b1 A))) as [Z1 _].
    destruct (jni_not_driver _ (proj2 (appends_emitted _ _ b2 A))) as [Z2 _].
    rewrite Z1, Z2. reflexivity.
Qed.

(** C8: the narrowing is a function of the arguments alone.  The same
    entry point called with the same arguments in any two states where the
    driver exists sends the same member calls with the same narrowed
    arguments; for set-speed and set-RPM the call carries the motor cast of
    the identifier and the signed eight-bit value whose bit pattern is the
    low eight bits of the input. *)
Theorem narrowing_deterministic (o : op) (b1 b2 : bridge) :
  g_amcu b1 <> None ->
  g_amcu b2 <> None ->
  driver_events (emitted (run o) b1) = driver_events (emitted (run o) b2)
  /\ (forall motor v,
        emitted (run (SetSpeed motor v)) b1 =
          [EvDriver (setSpeed (Motor_cast motor) (to_int8_t v))]
        /\ emitted (run (SetRPM motor v)) b1 =
          [EvDriver (setRPM (Motor_cast motor) (to_int8_t v))]
        /\ -128 <= to_int8_t v < 128
        /\ Narrow.bits 8 (to_int8_t v) = Narrow.bits 8 v).
Proof.
  intros P1 P2. split; [apply driver_events_state_independent; assumption|].
  intros motor v.
  destruct (g_amcu b1) as [d1|] eqn:E1; [|contradiction].
  repeat split; try apply to_int8_t_range; try apply to_int8_t_bits.
  - unfold emitted. step. rewrite E1. cbn. rewrite E1. cbn. apply skipn_own_length.
  - unfold emitted. step. rewrite E1. cbn. rewrite E1. cbn. apply skipn_own_length.
Qed.

(** ** The end-to-end scenario *)

(** C9: the scenario (2-wheel differential initializer with radius 5,
    distance 30, motors 1 and 2; set-speed of motor 1 to 50; get-encoder
    of motor 1) never faults, whatever the driver does and whatever state
    it starts in.  The driver receives exactly these three member calls,
    with the arguments unchanged by the narrowing, and the value returned
    is the driver's own reading as a [jshort]: zero when the driver reads
    zero. *)
Theorem scenario_returns_driver_reading (b : bridge) :
  let d0 := match g_amcu b with Some d => d | None => AMCU_new end in
  let init := initDifferentialDriveBase2Wheel 5 30 (Motor_cast 1) (Motor_cast 2) in
  let d1 := fst (AMCU_invoke d0 init) in
  let d2 := fst (AMCU_invoke d1 (setSpeed (Motor_cast 1) 50)) in
  let reading := snd (AMCU_invoke d2 (getEncoder (Motor_cast 1))) in
  fst (scenario b) = Ret (to_jshort reading)
  /\ filter (fun e => negb (is_construction e)) (emitted scenario b) =
       [EvDriver init; EvDriver (setSpeed (Motor_cast 1) 50);
        EvDriver (getEncoder (Motor_cast 1))]
  /\ (reading = 0 -> fst (scenario b) = Ret 0).
Proof.
  cbv zeta.
  assert (N : to_uint8_t 5 = 5 /\ to_uint16_t 30 = 30 /\ to_int8_t 50 = 50)
    by (repeat split; reflexivity).
  destruct N as [N1 [N2 N3]].
  assert (H : fst (scenario b) = Ret (to_jshort
     (snd (AMCU_invoke
        (fst (AMCU_invoke
           (fst (AMCU_invoke match g_amcu b with Some d => d | None => AMCU_new end
                   (initDifferentialDriveBase2Wheel 5 30 (Motor_cast 1) (Motor_cast 2))))
           (setSpeed (Motor_cast 1) 50)))
        (getEncoder (Motor_cast 1)))))).
  { unfold_entry. rewrite N1, N2, N3. unfold_monad.
    destruct (g_amcu b) as [d|] eqn:E; cbn; rewrite ?E; reflexivity. }
  split; [exact H|]. split.
  - unfold emitted. unfold_entry. rewrite N1, N2, N3. unfold_monad.
    destruct (g_amcu b) as [d|] eqn:E; cbn; rewrite ?E; cbn;
      repeat rewrite <- app_assoc; rewrite skipn_own_length; reflexivity.
  - intros Z0. rewrite H, Z0. reflexivity.
Qed.

(** * Further properties of the bridge *)

(** ** Which entry points can fault *)

Lemma getJNIEnv_returns (t : thread) (b : bridge) : fst (getJNIEnv t b) <> Fault.
Proof.
  unfold getJNIEnv. unfold_monad. cbn.
  destruct (g_jvm b); cbn; [|discriminate].
  destruct (fst (GetEnv (vm_state b) j t) =? JNI_EDETACHED); cbn; discriminate.
Qed.

Lemma run_returns (o : op) (b : bridge) :
  is_notifier o = false -> exists r, fst (run o b) = Ret r.
Proof.
  intros NN.
  destruct (is_initializer o) eqn:I; [|destruct (is_delegate o) eqn:D].
  - destruct (initializer_effect o I) as [c [_ H]]. rewrite H. eexists; reflexivity.
  - destruct (g_amcu b) as [d|] eqn:E.
    + destruct (delegate_present o D) as [c [_ H]]. destruct (H b d E) as [_ NF].
      destruct (fst (run o b)) as [r|]; [eexists; reflexivity | contradiction].
    + rewrite (delegate_absent o b E D). eexists; reflexivity.
  - destruct o; try discriminate NN; try discriminate I; try discriminate D.
    + eexists; reflexivity.
    + destruct (register_result LimitSwitch env callback b) as [H _].
      unfold run, void, bind, ret. change
        (Java_com_frc_amcu_AMCUWrapper_registerLimitSwitchCallbackNative env callback)
        with (register LimitSwitch env callback).
      destruct (register LimitSwitch env callback b) as [[u|] b1]; cbn in *;
        [eexists; reflexivity | discriminate H].
    + destruct (register_result DriveAction env callback b) as [H _].
      unfold run, void, bind, ret. change
        (Java_com_frc_amcu_AMCUWrapper_registerDriveActionCallbackNative env callback)
        with (register DriveAction env callback).
      destruct (register DriveAction env callback b) as [[u|] b1]; cbn in *;
        [eexists; reflexivity | discriminate H].
Qed.

(** X1: a history of calls that contains no delivery never faults:
    the load hook, the initializers, the forwarders and the two
    registrations return normally in every state. *)
Theorem only_notifiers_fault (os : list op) (b : bridge) :
  forallb (fun o => negb (is_notifier o)) os = true ->
  fst (run_all os b) = Ret tt.
Proof.
  revert b. induction os as [|o os IH]; intros b F; [reflexivity|].
  cbn in F. apply andb_true_iff in F. destruct F as [Fo Fos].
  apply negb_true_iff in Fo.
  destruct (run_returns o b Fo) as [r Hr].
  cbn. unfold bind. destruct (run o b) as [[r'|] b1]; cbn in *;
    [apply IH; exact Fos | discriminate Hr].
Qed.

(** X2: a delivery faults exactly when a listener is registered, the
    runtime pointer is set and the thread lookup yields a null
    environment; in every other case it returns normally. *)
Theorem notify_fault_iff (s : slot) (t : thread) (b : bridge) :
  fst (notify s t b) = Fault <->
  (exists r jvm, callback_in s b = Some r /\ g_jvm b = Some jvm
                 /\ fst (getJNIEnv t b) = Ret None).
Proof.
  split.
  - intros F.
    destruct (callback_in s b) as [r|] eqn:C.
    2:{ rewrite (proj1 (notify_without_listener_state s t b C)) in F. discriminate F. }
    destruct (g_jvm b) as [jvm|] eqn:J.
    2:{ exfalso. revert F. destruct s; cbn in C; step; rewrite C, J; discriminate. }
    exists r, jvm. repeat split.
    pose proof (getJNIEnv_returns t b) as NR. revert F.
    destruct s; cbn in C; unfold notify, notifyLimitSwitchTriggered, notifyDriveAction;
      unfold bind, gets; cbv beta iota; rewrite C, J; cbv beta iota;
      destruct (getJNIEnv t b) as [[[e|]|] b1]; cbn in *;
      try reflexivity; try contradiction.
    all: unfold_monad; cbn;
      match goal with
      | |- context [match ?x with Some _ => _ | None => _ end] => destruct x
      end; cbn; discriminate.
  - intros [r [jvm [C [J G]]]]. apply (notify_null_env_faults s t b r jvm C J G).
Qed.

(** ** What a delivery does when it goes through *)

Ltac run_notify s C J G A FM :=
  destruct s; cbn in C; cbn [listener_method] in *; unfold emitted; step;
  repeat (first [rewrite C | rewrite J | rewrite G | rewrite A | rewrite FM]; cbn);
  repeat rewrite <- app_assoc; rewrite ?skipn_own_length.

(** X3: on a thread the runtime already knows, with a listener whose
    class has the expected method, a delivery makes exactly four runtime
    calls -- thread lookup, class of the listener, lookup of the method
    under the slot's name with signature ()V, one invocation of that
    method on the listener -- and returns normally. *)
Theorem notify_invokes_listener_once (s : slot) (t : thread) (b : bridge)
    (r : jobject) (jvm : JavaVM) (env : JNIEnv) (m : jmethodID) :
  callback_in s b = Some r ->
  g_jvm b = Some jvm ->
  GetEnv (vm_state b) jvm t = (JNI_OK, Some env) ->
  let cls := GetObjectClass (vm_state b) env r in
  snd (GetMethodID (fst cls) env (snd cls) (listener_method s) "()V") = Some m ->
  fst (notify s t b) = Ret tt
  /\ emitted (notify s t) b =
       [EvJni (J_GetEnv jvm t); EvJni (J_GetObjectClass r);
        EvJni (J_GetMethodID (snd cls) (listener_method s) "()V");
        EvJni (J_CallVoidMethod r m)]
  /\ invoked (emitted (notify s t) b) = [(r, m)].
Proof.
  intros C J G cls FM. subst cls.
  run_notify s C J G G FM; repeat split; reflexivity.
Qed.


(** X5: on a detached thread that the runtime accepts, the delivery
    attaches the thread first and then proceeds with the environment the
    attachment produced: the listener is invoked once. *)
Theorem notify_attaches_detached_thread (s : slot) (t : thread) (b : bridge)
    (r : jobject) (jvm : JavaVM) (env : JNIEnv) (m : jmethodID) :
  callback_in s b = Some r ->
  g_jvm b = Some jvm ->
  GetEnv (vm_state b) jvm t = (JNI_EDETACHED, None) ->
  let att := AttachCurrentThread (vm_state b) jvm t in
  snd att = Some env ->
  let cls := GetObjectClass (fst att) env r in
  snd (GetMethodID (fst cls) env (snd cls) (listener_method s) "()V") = Some m ->
  fst (notify s t b) = Ret tt
  /\ emitted (notify s t) b =
       [EvJni (J_GetEnv jvm t); EvJni (J_AttachCurrentThread jvm t);
        EvJni (J_GetObjectClass r);
        EvJni (J_GetMethodID (snd cls) (listener_method s) "()V");
        EvJni (J_CallVoidMethod r m)].
Proof.
  intros C J G att A cls FM. subst cls att.
  run_notify s C J G A FM; repeat split; reflexivity.
Qed.

(** X6: while the runtime pointer is null (the load hook has not stored
    one), a delivery is a no-op even with a listener registered: it
    returns normally and leaves the whole state as it was. *)
Theorem notify_without_runtime (s : slot) (t : thread) (b : bridge) :
  g_jvm b = None ->
  notify s t b = (Ret tt, b) /\ emitted (notify s t) b = [].
Proof.
  intros J.
  assert (H : notify s t b = (Ret tt, b)).
  { destruct s; step; rewrite J.
    - destruct (g_limitSwitchCallback b); reflexivity.
    - destruct (g_driveActionCallback b); reflexivity. }
  split; [exact H | apply emitted_unchanged; rewrite H; reflexivity].
Qed.

(** ** Separation of the driver side and the runtime side *)

(** X7: a delivery, whether it goes through, is skipped or faults,
    writes none of the four statics, sends nothing to the driver and
    neither obtains nor releases a global reference. *)
Theorem notify_writes_no_static (s : slot) (t : thread) (b : bridge) :
  g_amcu (snd (notify s t b)) = g_amcu b
  /\ g_limitSwitchCallback (snd (notify s t b)) = g_limitSwitchCallback b
  /\ g_driveActionCallback (snd (notify s t b)) = g_driveActionCallback b
  /\ g_jvm (snd (notify s t b)) = g_jvm b
  /\ driver_events (emitted (notify s t) b) = []
  /\ acquired (emitted (notify s t) b) = []
  /\ released (emitted (notify s t) b) = [].
Proof.
  assert (KJ : keeps g_jvm (notify s t)) by (destruct s; frame).
  assert (AR : appends (fun e => negb (is_ref_event e)) (notify s t))
    by (destruct s; frame).
  destruct (no_ref_events _ (proj2 (appends_emitted _ _ b AR))) as [Z1 Z2].
  repeat split; try assumption.
  - apply notify_keeps_driver.
  - apply (notify_keeps_slot s LimitSwitch).
  - apply (notify_keeps_slot s DriveAction).
  - apply KJ.
  - apply jni_not_driver. apply (appends_emitted _ _ b (notify_appends_jni s t)).
Qed.

(** X8: the initializers and the forwarders stay on the driver side:
    they make no runtime call, leave the runtime state, the runtime
    pointer and both callback slots as they were, and log driver events
    only. *)
Theorem driver_side_leaves_runtime (o : op) (b : bridge) :
  is_initializer o || is_delegate o = true ->
  vm_state (snd (run o b)) = vm_state b
  /\ g_jvm (snd (run o b)) = g_jvm b
  /\ g_limitSwitchCallback (snd (run o b)) = g_limitSwitchCallback b
  /\ g_driveActionCallback (snd (run o b)) = g_driveActionCallback b
  /\ forallb is_driver_event (emitted (run o) b) = true.
Proof.
  intros H.
  assert (K : keeps vm_state (run o) /\ keeps g_jvm (run o)
              /\ keeps g_limitSwitchCallback (run o)
              /\ keeps g_driveActionCallback (run o)
              /\ appends is_driver_event (run o)).
  { destruct o; try discriminate H; repeat split; frame. }
  destruct K as [K1 [K2 [K3 [K4 A]]]].
  repeat split; try (apply K1 || apply K2 || apply K3 || apply K4).
  apply (appends_emitted _ _ b A).
Qed.

(** ** The driver singleton over whole histories *)

(** X9: in every state the bridge can reach, at most one driver object
    was ever constructed, and one was constructed exactly when the
    singleton pointer is set. *)
Theorem driver_constructed_at_most_once (b : bridge) :
  reachable b ->
  (constructions (trace b) <= 1)%nat
  /\ (constructions (trace b) = 1%nat <-> g_amcu b <> None).
Proof.
  intros Rb. pose proof (reachable_one_driver b Rb) as Inv.
  unfold one_driver in Inv. rewrite Inv.
  destruct (g_amcu b); repeat split; try lia; try discriminate; congruence.
Qed.

Lemma run_keeps_driver_present (o : op) (b : bridge) :
  g_amcu b <> None -> g_amcu (snd (run o b)) <> None.
Proof.
  intros P. destruct (g_amcu b) as [d|] eqn:E; [|contradiction].
  destruct (is_initializer o) eqn:I; [|destruct (is_delegate o) eqn:D].
  - destruct (initializer_effect o I) as [c [_ H]]. rewrite H, E. discriminate.
  - destruct (delegate_present o D) as [c [_ H]]. destruct (H b d E) as [H1 _].
    rewrite H1. discriminate.
  - destruct (runtime_side_frame o I D) as [K _]. rewrite K, E. discriminate.
Qed.

(** X10: the driver singleton is never destroyed or reset: once the
    pointer is set it stays set through every history of calls. *)
Theorem driver_persists (os : list op) (b : bridge) :
  g_amcu b <> None -> g_amcu (snd (run_all os b)) <> None.
Proof.
  revert b. induction os as [|o os IH]; intros b P; [exact P|].
  pose proof (run_keeps_driver_present o b P) as H.
  cbn. unfold bind. destruct (run o b) as [[r|] b1]; cbn in *;
    [apply IH; exact H | exact H].
Qed.

Lemma run_all_extends_jni (os : list op) (b : bridge) :
  forallb (fun o => negb (is_initializer o)) os = true ->
  g_amcu b = None ->
  g_amcu (snd (run_all os b)) = None
  /\ exists l, trace (snd (run_all os b)) = trace b ++ l
               /\ forallb is_jni_event l = true.
Proof.
  revert b. induction os as [|o os IH]; intros b F E.
  - split; [exact E|]. exists []. rewrite app_nil_r. split; reflexivity.
  - cbn in F. apply andb_true_iff in F. destruct F as [Fo Fos].
    apply negb_true_iff in Fo.
    assert (S1 : g_amcu (snd (run o b)) = None
                 /\ exists l, trace (snd (run o b)) = trace b ++ l
                              /\ forallb is_jni_event l = true).
    { destruct (is_delegate o) eqn:D.
      - rewrite (delegate_absent o b E D). cbn. split; [exact E|].
        exists []. rewrite app_nil_r. split; reflexivity.
      - destruct (runtime_side_frame o Fo D) as [K A]. split.
        + rewrite K. exact E.
        + apply A. }
    destruct S1 as [E1 [l1 [T1 P1]]].
    cbn. unfold bind. destruct (run o b) as [[r|] b1]; cbn in *.
    + destruct (IH b1 Fos E1) as [E2 [l2 [T2 P2]]].
      split; [exact E2|]. exists (l1 ++ l2).
      rewrite T2, T1, app_assoc, forallb_app, P1, P2. split; reflexivity.
    + split; [exact E1|]. exists l1. split; assumption.
Qed.

(** X11: before the first initializer, no history of calls reaches the
    driver: starting without a driver, any sequence of calls that contains
    no initializer constructs nothing, makes no member call and leaves the
    singleton pointer null. *)
Theorem no_driver_traffic_before_init (os : list op) (b : bridge) :
  forallb (fun o => negb (is_initializer o)) os = true ->
  g_amcu b = None ->
  g_amcu (snd (run_all os b)) = None
  /\ driver_events (emitted (run_all os) b) = []
  /\ constructions (emitted (run_all os) b) = 0%nat.
Proof.
  intros F E. destruct (run_all_extends_jni os b F E) as [E1 [l [T P]]].
  split; [exact E1|]. unfold emitted. rewrite T, skipn_own_length.
  apply jni_not_driver. exact P.
Qed.

(** ** Global references over whole histories *)

(** X12: in every state the bridge can reach, and for every class of
    references, the references obtained from the runtime are those
    released plus those the two slots still hold: none is lost and none
    is released twice. *)
Theorem references_accounted (b : bridge) (p : jobject -> bool) :
  reachable b ->
  count p (acquired (trace b)) =
  (count p (released (trace b)) + count p (held b))%nat.
Proof. intros Rb. apply (reachable_balanced b Rb). Qed.

(** ** Arguments inside and outside the driver's ranges *)

Lemma to_int8_t_id (v : Z) : -128 <= v < 128 -> to_int8_t v = v.
Proof.
  intros H. unfold to_int8_t, Narrow.signed.
  change (2 ^ 8) with 256. change (2 ^ (8 - 1)) with 128.
  rewrite Z.mod_small by lia. lia.
Qed.

Lemma to_int8_t_high (v : Z) : 128 <= v < 256 -> to_int8_t v = v - 256.
Proof.
  intros H. unfold to_int8_t, Narrow.signed.
  change (2 ^ 8) with 256. change (2 ^ (8 - 1)) with 128.
  replace (v + 128) with (v - 128 + 1 * 256) by lia.
  rewrite Z.mod_add by discriminate. rewrite Z.mod_small by lia. lia.
Qed.

Lemma to_uint8_t_id (v : Z) : 0 <= v < 256 -> to_uint8_t v = v.
Proof. intros H. unfold to_uint8_t, Narrow.unsigned. apply Z.mod_small. exact H. Qed.

Lemma to_uint16_t_id (v : Z) : 0 <= v < 65536 -> to_uint16_t v = v.
Proof. intros H. unfold to_uint16_t, Narrow.unsigned. apply Z.mod_small. exact H. Qed.


Lemma to_uint16_t_neg (v : Z) : -65536 <= v < 0 -> to_uint16_t v = v + 65536.
Proof.
  intros H. unfold to_uint16_t, Narrow.unsigned. change (2 ^ 16) with 65536.
  rewrite <- (Z.mod_add v 1 65536) by discriminate. apply Z.mod_small. lia.
Qed.

Lemma to_jshort_range (v : Z) : -32768 <= to_jshort v < 32768.
Proof.
  unfold to_jshort, Narrow.signed.
  change (2 ^ 16) with 65536. change (2 ^ (16 - 1)) with 32768.
  pose proof (Z.mod_pos_bound (v + 32768) 65536). lia.
Qed.

Lemma to_jshort_id (v : Z) : -32768 <= v < 32768 -> to_jshort v = v.
Proof.
  intros H. unfold to_jshort, Narrow.signed.
  change (2 ^ 16) with 65536. change (2 ^ (16 - 1)) with 32768.
  rewrite Z.mod_small by lia. lia.
Qed.

Lemma to_jint_range (v : Z) : -2147483648 <= to_jint v < 2147483648.
Proof.
  unfold to_jint, Narrow.signed.
  change (2 ^ 32) with 4294967296. change (2 ^ (32 - 1)) with 2147483648.
  pose proof (Z.mod_pos_bound (v + 2147483648) 4294967296). lia.
Qed.

Lemma to_jint_id (v : Z) : -2147483648 <= v < 2147483648 -> to_jint v = v.
Proof.
  intros H. unfold to_jint, Narrow.signed.
  change (2 ^ 32) with 4294967296. change (2 ^ (32 - 1)) with 2147483648.
  rewrite Z.mod_small by lia. lia.
Qed.

(** The single member call a forwarder makes when the driver exists. *)
Ltac one_call E :=
  unfold emitted; step; rewrite E; cbn; rewrite ?E; cbn;
  rewrite ?skipn_own_length.

(** X13: a speed percentage or an RPM target within the signed
    eight-bit range reaches the driver as it was given. *)
Theorem in_range_speed_passes (motor v : Z) (b : bridge) (d : AMCU) :
  g_amcu b = Some d ->
  -128 <= v < 128 ->
  emitted (Java_com_frc_amcu_AMCUWrapper_setSpeedNative motor v) b =
    [EvDriver (setSpeed (Motor_cast motor) v)]
  /\ emitted (Java_com_frc_amcu_AMCUWrapper_setRPMNative motor v) b =
    [EvDriver (setRPM (Motor_cast motor) v)].
Proof.
  intros E H. split; one_call E; rewrite (to_int8_t_id v H); reflexivity.
Qed.

(** X14: a speed percentage or an RPM target in 128..255 is not
    rejected or clamped: it reaches the driver as the negative value
    [v - 256]. *)
Theorem overflowing_speed_turns_negative (motor v : Z) (b : bridge) (d : AMCU) :
  g_amcu b = Some d ->
  128 <= v < 256 ->
  emitted (Java_com_frc_amcu_AMCUWrapper_setSpeedNative motor v) b =
    [EvDriver (setSpeed (Motor_cast motor) (v - 256))]
  /\ emitted (Java_com_frc_amcu_AMCUWrapper_setRPMNative motor v) b =
    [EvDriver (setRPM (Motor_cast motor) (v - 256))]
  /\ v - 256 < 0.
Proof.
  intros E H. repeat split; try lia; one_call E; rewrite (to_int8_t_high v H);
    reflexivity.
Qed.

(** X15: with the driver present, the two reads make one member call
    each and return the driver's answer converted to the Java result type:
    always within the range of [jshort] (encoder) or [jint] (RPM), and the
    driver's own value whenever that value fits. *)
Theorem reads_return_driver_value (motor : Z) (b : bridge) (d : AMCU) :
  g_amcu b = Some d ->
  let enc := snd (AMCU_invoke d (getEncoder (Motor_cast motor))) in
  let rpm := snd (AMCU_invoke d (getRPM (Motor_cast motor))) in
  (fst (Java_com_frc_amcu_AMCUWrapper_getEncoderNative motor b) = Ret (to_jshort enc)
   /\ emitted (Java_com_frc_amcu_AMCUWrapper_getEncoderNative motor) b =
        [EvDriver (getEncoder (Motor_cast motor))]
   /\ -32768 <= to_jshort enc < 32768
   /\ (-32768 <= enc < 32768 -> to_jshort enc = enc))
  /\ (fst (Java_com_frc_amcu_AMCUWrapper_getRPMNative motor b) = Ret (to_jint rpm)
      /\ emitted (Java_com_frc_amcu_AMCUWrapper_getRPMNative motor) b =
           [EvDriver (getRPM (Motor_cast motor))]
      /\ -2147483648 <= to_jint rpm < 2147483648
      /\ (-2147483648 <= rpm < 2147483648 -> to_jint rpm = rpm)).
Proof.
  intros E enc rpm. subst enc rpm. split; repeat split.
  all: try apply to_jshort_range; try apply to_jint_range.
  all: try apply to_jshort_id; try apply to_jint_id.
  all: try (step; rewrite E; cbn; rewrite ?E; reflexivity).
  all: one_call E; reflexivity.
Qed.

(** X16: geometry within the driver's ranges (wheel radius in 0..255,
    the other lengths in 0..65535) reaches the driver unchanged: each of
    the four initializers makes exactly one member call, the initializer
    of its own topology, with the lengths as given and the motor
    identifiers cast to [Motor]. *)
Theorem in_range_geometry_passes (wheelRadius x y m1 m2 m3 m4 : Z) (b : bridge) :
  0 <= wheelRadius < 256 ->
  0 <= x < 65536 ->
  0 <= y < 65536 ->
  member_calls (emitted
    (Java_com_frc_amcu_AMCUWrapper_initOmniDriveBaseNative wheelRadius x m1 m2 m3) b) =
    [EvDriver (initOmniDriveBase wheelRadius x
                 (Motor_cast m1) (Motor_cast m2) (Motor_cast m3))]
  /\ member_calls (emitted
    (Java_com_frc_amcu_AMCUWrapper_initMecanumDriveBaseNative
       wheelRadius x y m1 m2 m3 m4) b) =
    [EvDriver (initMecanumDriveBase wheelRadius x y
                 (Motor_cast m1) (Motor_cast m2) (Motor_cast m3) (Motor_cast m4))]
  /\ member_calls (emitted
    (Java_com_frc_amcu_AMCUWrapper_initDifferentialDriveBase2WheelNative
       wheelRadius x m1 m2) b) =
    [EvDriver (initDifferentialDriveBase2Wheel wheelRadius x
                 (Motor_cast m1) (Motor_cast m2))]
  /\ member_calls (emitted
    (Java_com_frc_amcu_AMCUWrapper_initDifferentialDriveBase4WheelNative
       wheelRadius x m1 m2 m3 m4) b) =
    [EvDriver (initDifferentialDriveBase4Wheel wheelRadius x
                 (Motor_cast m1) (Motor_cast m2) (Motor_cast m3) (Motor_cast m4))].
Proof.
  intros Hr Hx Hy. unfold member_calls.
  repeat split; unfold emitted; unfold_entry;
    rewrite ?(to_uint8_t_id wheelRadius Hr), ?(to_uint16_t_id x Hx),
            ?(to_uint16_t_id y Hy);
    unfold_monad; destruct (g_amcu b) as [d|] eqn:E; cbn; rewrite ?E; cbn;
    repeat rewrite <- app_assoc; rewrite skipn_own_length; reflexivity.
Qed.


(** X18: the distance-bounded drive passes displacements in 0..255 and
    an angle in 0..65535 unchanged; a negative angle is not passed as such
    but wrapped to [omegaDegree + 65536]. *)
Theorem driveDistance_arguments (xMeter yMeter omegaDegree : Z) (b : bridge) (d : AMCU) :
  g_amcu b = Some d ->
  0 <= xMeter < 256 ->
  0 <= yMeter < 256 ->
  (0 <= omegaDegree < 65536 ->
     emitted (Java_com_frc_amcu_AMCUWrapper_driveDistanceNative
                xMeter yMeter omegaDegree) b =
       [EvDriver (driveDistance xMeter yMeter omegaDegree)])
  /\ (-65536 <= omegaDegree < 0 ->
     emitted (Java_com_frc_amcu_AMCUWrapper_driveDistanceNative
                xMeter yMeter omegaDegree) b =
       [EvDriver (driveDistance xMeter yMeter (omegaDegree + 65536))]).
Proof.
  intros E Hx Hy. split; intros Ho; unfold emitted; unfold_entry;
    rewrite (to_uint8_t_id xMeter Hx), (to_uint8_t_id yMeter Hy);
    [rewrite (to_uint16_t_id omegaDegree Ho) | rewrite (to_uint16_t_neg omegaDegree Ho)];
    unfold_monad; cbn; rewrite E; cbn; rewrite ?E; cbn;
    apply skipn_own_length.
Qed.

(** ** More on registration *)

(** X19: whatever the slot held and whatever was registered, a
    registration releases exactly the reference the slot held (nothing
    when it was empty) and obtains at most one reference, the one it
    stores; clearing an empty slot makes no runtime call at all. *)
Theorem register_releases_what_slot_held (s : slot) (env : JNIEnv)
    (cb : option jobject) (b : bridge) :
  released (emitted (register s env cb) b) = slot_refs s b
  /\ acquired (emitted (register s env cb) b) =
       slot_refs s (snd (register s env cb b))
  /\ (callback_in s b = None -> cb = None -> register s env cb b = (Ret tt, b)).
Proof.
  unfold slot_refs.
  destruct s; cbn [callback_in].
  all: destruct (g_limitSwitchCallback b) as [r1|] eqn:E1;
       destruct (g_driveActionCallback b) as [r2|] eqn:E2;
       destruct cb as [o|]; unfold emitted; step; rewrite ?E1, ?E2; cbn;
       rewrite ?E1, ?E2;
       try match goal with
           | |- context [NewGlobalRef ?v ?e ?x] => destruct (snd (NewGlobalRef v e x))
           end;
       cbn; repeat rewrite <- app_assoc;
       rewrite ?skipn_own_length, ?skipn_all_own;
       repeat split; try reflexivity; try discriminate.
Qed.

(** X20: registering a listener and then clearing the slot leaves the
    slot empty and the other slot untouched, and hands back to the runtime
    both what the slot held before and whatever the registration
    obtained: the pair of calls keeps no reference. *)
Theorem register_then_clear (s : slot) (env : JNIEnv) (o : jobject) (b : bridge) :
  let both := bind (register s env (Some o)) (fun _ => register s env None) in
  fst (both b) = Ret tt
  /\ callback_in s (snd (both b)) = None
  /\ callback_in (other s) (snd (both b)) = callback_in (other s) b
  /\ released (emitted both b) = slot_refs s b ++ acquired (emitted both b).
Proof.
  unfold slot_refs. cbv zeta.
  destruct s; cbn [callback_in other].
  all: destruct (g_limitSwitchCallback b) as [r1|] eqn:E1;
       destruct (g_driveActionCallback b) as [r2|] eqn:E2;
       unfold emitted; step; rewrite ?E1, ?E2; cbn; rewrite ?E1, ?E2;
       try match goal with
           | |- context [NewGlobalRef ?v ?e ?x] => destruct (snd (NewGlobalRef v e x))
           end;
       cbn; repeat rewrite <- app_assoc;
       rewrite ?skipn_own_length, ?skipn_all_own;
       repeat split; rewrite ?E1, ?E2; reflexivity.
Qed.

(** X21: when the runtime cannot hand out a new global reference, a
    replacement still releases the previous listener: the slot ends up
    empty and the next delivery for it is a no-op. *)
Theorem failed_replacement_drops_listener (s : slot) (env : JNIEnv) (o r : jobject)
    (t : thread) (b : bridge) :
  callback_in s b = Some r ->
  snd (NewGlobalRef (DeleteGlobalRef (vm_state b) env r) env o) = None ->
  let b1 := snd (register s env (Some o) b) in
  callback_in s b1 = None
  /\ released (emitted (register s env (Some o)) b) = [r]
  /\ notify s t b1 = (Ret tt, b1).
Proof.
  intros C F b1.
  assert (E : callback_in s b1 = None).
  { subst b1. destruct (register_result s env (Some o) b) as [_ H].
    rewrite H. unfold vm_after_release. rewrite C. exact F. }
  repeat split.
  - exact E.
  - destruct s; cbn in C; unfold emitted; step; rewrite C; cbn;
      rewrite <- app_assoc, skipn_own_length; reflexivity.
  - apply (notify_without_listener_state s t b1 E).
Qed.

(** ** The thread lookup and the load hook *)

(** X22: the thread lookup never faults and attaches nothing unless
    [GetEnv] answered JNI_EDETACHED: without a runtime pointer it makes no
    call at all, and for any other answer it makes the one [GetEnv] call,
    leaves the runtime state alone and returns what [GetEnv] left in the
    environment pointer. *)
Theorem getJNIEnv_attaches_only_detached (t : thread) (b : bridge) :
  fst (getJNIEnv t b) <> Fault
  /\ (g_jvm b = None -> getJNIEnv t b = (Ret None, b))
  /\ (forall jvm, g_jvm b = Some jvm ->
        fst (GetEnv (vm_state b) jvm t) <> JNI_EDETACHED ->
        getJNIEnv t b =
          (Ret (snd (GetEnv (vm_state b) jvm t)), log (EvJni (J_GetEnv jvm t)) b)
        /\ vm_state (snd (getJNIEnv t b)) = vm_state b).
Proof.
  split; [apply getJNIEnv_returns|]. split.
  - intros J. unfold getJNIEnv. unfold_monad. cbn. rewrite J. reflexivity.
  - intros jvm J N. unfold getJNIEnv. unfold_monad. cbn. rewrite J. cbn.
    destruct (fst (GetEnv (vm_state b) jvm t) =? JNI_EDETACHED) eqn:Q.
    + apply Z.eqb_eq in Q. contradiction.
    + split; reflexivity.
Qed.

(** X23: the load hook returns JNI_VERSION_1_6 and changes nothing but
    the runtime pointer; from then on a delivery to a registered listener
    starts with a [GetEnv] call on the runtime the hook stored. *)
Theorem onload_sets_runtime_for_delivery (s : slot) (t : thread) (jvm : JavaVM)
    (r : jobject) (b : bridge) :
  callback_in s b = Some r ->
  let b1 := snd (JNI_OnLoad (Some jvm) b) in
  fst (JNI_OnLoad (Some jvm) b) = Ret 65542
  /\ b1 = set_g_jvm (Some jvm) b
  /\ exists rest, emitted (notify s t) b1 = EvJni (J_GetEnv jvm t) :: rest.
Proof.
  intros C b1. subst b1. split; [reflexivity|]. split; [reflexivity|].
  destruct s; cbn in C; unfold emitted; step; rewrite C; cbn;
    repeat (match goal with
            | |- context [if ?x then _ else _] => destruct x
            | |- context [match ?x with Some _ => _ | None => _ end] => destruct x
            end; cbn);
    repeat rewrite <- app_assoc; rewrite skipn_own_length;
    eexists; reflexivity.
Qed.

End BridgeFacts.

(** * The theorems at work on the simulated driver and runtime *)

Import Sim.

Lemma uninitialised_driver_noop_witness :
  g_amcu (snd (run (GetEncoder 1) Sim.fresh)) = None
  /\ driver_events (emitted (run (GetEncoder 1)) Sim.fresh) = []
  /\ (is_delegate (GetEncoder 1) = true ->
      run (GetEncoder 1) Sim.fresh = (Ret (Some 0), Sim.fresh)).
Proof.
  apply (uninitialised_driver_noop (GetEncoder 1) Sim.fresh); reflexivity.
Defined.

Lemma initializer_keeps_singleton_witness :
  let b := snd (run_all [InitOmniDriveBase 4 20 1 2 3; SetSpeed 1 10] Sim.fresh) in
  let o := InitDifferentialDriveBase2Wheel 5 30 1 2 in
  fst (run o b) = Ret None
  /\ constructions (trace (snd (run o b))) = 1%nat.
Proof.
  intros b o.
  assert (Rb : reachable b) by (exists [], [InitOmniDriveBase 4 20 1 2 3; SetSpeed 1 10]; reflexivity).
  destruct (initializer_keeps_singleton o b Rb eq_refl) as [H1 [H2 _]].
  split; [exact H1 | exact H2].
Defined.

Lemma notify_faults_when_attach_fails_witness :
  fst (notify (R:=runtime) LimitSwitch Unattachable Sim.busy) = Fault
  /\ emitted (notify (R:=runtime) LimitSwitch Unattachable) Sim.busy =
       [EvJni (J_GetEnv tt Unattachable); EvJni (J_AttachCurrentThread tt Unattachable)].
Proof.
  apply (notify_faults_when_attach_fails (L:=driver) (R:=runtime) LimitSwitch Unattachable Sim.busy 7 tt);
    reflexivity.
Defined.

Lemma register_replaces_once_witness :
  fst (register (R:=runtime) LimitSwitch tt (Some 9) Sim.busy) = Ret tt
  /\ emitted (register (R:=runtime) LimitSwitch tt (Some 9)) Sim.busy =
       [EvJni (J_DeleteGlobalRef 7); EvJni (J_NewGlobalRef 9 (Some 9))]
  /\ released (emitted (register (R:=runtime) LimitSwitch tt (Some 9)) Sim.busy) = [7]
  /\ callback_in LimitSwitch (snd (register (R:=runtime) LimitSwitch tt (Some 9) Sim.busy)) = Some 9
  /\ vm_state (snd (register (R:=runtime) LimitSwitch tt (Some 9) Sim.busy)) = [9; 8].
Proof.
  apply (register_replaces_once (L:=driver) (R:=runtime) LimitSwitch tt 9 7 Sim.busy). reflexivity.
Defined.

Lemma notify_without_listener_witness :
  notify DriveAction Detached Sim.fresh = (Ret tt, Sim.fresh)
  /\ emitted (notify (R:=runtime) DriveAction Detached) Sim.fresh = [].
Proof.
  apply (notify_without_listener (L:=driver) (R:=runtime) DriveAction Detached Sim.fresh). reflexivity.
Defined.

Lemma cleared_slot_stays_silent_witness :
  let os := [NotifyLimitSwitchTriggered Attached;
             RegisterDriveActionCallback tt (Some 9);
             InitOmniDriveBase 4 20 1 2 3;
             NotifyDriveAction Detached;
             RegisterLimitSwitchCallback tt None] in
  let b1 := snd (bind (register (R:=runtime) LimitSwitch tt None) (fun _ => run_all os) Sim.busy) in
  callback_in LimitSwitch b1 = None
  /\ notify LimitSwitch Attached b1 = (Ret tt, b1)
  /\ invoked (emitted (notify (R:=runtime) LimitSwitch Attached) b1) = [].
Proof.
  intros os.
  apply (cleared_slot_stays_silent (L:=driver) (R:=runtime) LimitSwitch tt os Attached Sim.busy). reflexivity.
Defined.

Lemma axis_speeds_narrow_unsigned_witness :
  emitted (Java_com_frc_amcu_AMCUWrapper_speedDriveNative (-50) 100 300) Sim.busy =
    [EvDriver (speedDrive 206 100 44)]
  /\ emitted (Java_com_frc_amcu_AMCUWrapper_timeDriveNative (-50) 100 300 (-1)) Sim.busy =
    [EvDriver (timeDrive 206 100 44 255)].
Proof.
  destruct (axis_speeds_narrow_unsigned (-50) 100 300 (-1) Sim.busy [] eq_refl)
    as [H1 [H2 _]].
  split; [exact H1 | exact H2].
Defined.

(** The signed reading of C7 fails on a negative axis speed: the driver
    receives 206 where the signed narrow interpretation of -50 is -50. *)
Lemma axis_speeds_not_signed :
  emitted (Java_com_frc_amcu_AMCUWrapper_speedDriveNative (-50) 0 0) Sim.busy =
    [EvDriver (speedDrive 206 0 0)]
  /\ emitted (Java_com_frc_amcu_AMCUWrapper_timeDriveNative (-50) 0 0 1) Sim.busy =
    [EvDriver (timeDrive 206 0 0 1)]
  /\ to_int8_t (-50) = -50
  /\ emitted (Java_com_frc_amcu_AMCUWrapper_speedDriveNative (-50) 0 0) Sim.busy <>
    [EvDriver (speedDrive (to_int8_t (-50)) (to_int8_t 0) (to_int8_t 0))]
  /\ emitted (Java_com_frc_amcu_AMCUWrapper_timeDriveNative (-50) 0 0 1) Sim.busy <>
    [EvDriver (timeDrive (to_int8_t (-50)) (to_int8_t 0) (to_int8_t 0) (to_int8_t 1))].
Proof.
  repeat split; try reflexivity; intros H; discriminate H.
Qed.

Lemma narrowing_deterministic_witness :
  let b2 := snd (run_all [InitMecanumDriveBase 4 20 30 1 2 3 4; OnLoad (Some tt)] Sim.fresh) in
  driver_events (emitted (run (SetSpeed 300 128)) Sim.busy) =
  driver_events (emitted (run (SetSpeed 300 128)) b2)
  /\ emitted (run (SetSpeed 300 128)) Sim.busy = [EvDriver (setSpeed 300 (-128))]
  /\ emitted (run (SetRPM 300 128)) Sim.busy = [EvDriver (setRPM 300 (-128))].
Proof.
  intros b2.
  destruct (narrowing_deterministic (SetSpeed 300 128) Sim.busy b2
              ltac:(discriminate) ltac:(discriminate)) as [H1 H2].
  destruct (H2 300 128) as [H3 [H4 _]].
  split; [exact H1 | split; [exact H3 | exact H4]].
Defined.

Lemma scenario_returns_driver_reading_witness :
  fst (scenario Sim.fresh) = Ret 0
  /\ emitted scenario Sim.fresh =
       [EvNew; EvDriver (initDifferentialDriveBase2Wheel 5 30 1 2);
        EvDriver (setSpeed 1 50); EvDriver (getEncoder 1)].
Proof.
  destruct (scenario_returns_driver_reading (L:=driver) (R:=runtime) Sim.fresh) as [_ [_ H]].
  split; [exact (H eq_refl) | reflexivity].
Defined.

(** ** The further properties at work *)

Lemma only_notifiers_fault_witness :
  fst (run_all [SetSpeed 1 50; RegisterLimitSwitchCallback tt (Some 7);
                InitOmniDriveBase 4 20 1 2 3; GetRPM 2; OnLoad None;
                RegisterLimitSwitchCallback tt None] Sim.fresh) = Ret tt.
Proof.
  apply (only_notifiers_fault (L:=driver) (R:=runtime)). reflexivity.
Defined.

Lemma notify_invokes_listener_once_witness :
  fst (notify (R:=runtime) LimitSwitch Attached Sim.busy) = Ret tt
  /\ emitted (notify (R:=runtime) LimitSwitch Attached) Sim.busy =
       [EvJni (J_GetEnv tt Attached); EvJni (J_GetObjectClass 7);
        EvJni (J_GetMethodID 7 "onLimitSwitchTriggered" "()V");
        EvJni (J_CallVoidMethod 7 1)]
  /\ invoked (emitted (notify (R:=runtime) LimitSwitch Attached) Sim.busy) = [(7, 1)].
Proof.
  apply (notify_invokes_listener_once (L:=driver) (R:=runtime)
           LimitSwitch Attached Sim.busy 7 tt tt 1); reflexivity.
Defined.


Lemma notify_attaches_detached_thread_witness :
  fst (notify (R:=runtime) DriveAction Detached Sim.busy) = Ret tt
  /\ emitted (notify (R:=runtime) DriveAction Detached) Sim.busy =
       [EvJni (J_GetEnv tt Detached); EvJni (J_AttachCurrentThread tt Detached);
        EvJni (J_GetObjectClass 8);
        EvJni (J_GetMethodID 8 "onDriveAction" "()V");
        EvJni (J_CallVoidMethod 8 1)].
Proof.
  apply (notify_attaches_detached_thread (L:=driver) (R:=runtime)
           DriveAction Detached Sim.busy 8 tt tt 1); reflexivity.
Defined.

Lemma notify_without_runtime_witness :
  let b := snd (run_all [RegisterLimitSwitchCallback tt (Some 7)] Sim.fresh) in
  callback_in LimitSwitch b = Some 7
  /\ notify (R:=runtime) LimitSwitch Unattachable b = (Ret tt, b).
Proof.
  intros b. split; [reflexivity|].
  apply (notify_without_runtime (L:=driver) (R:=runtime) LimitSwitch Unattachable b).
  reflexivity.
Defined.

Lemma driver_side_leaves_runtime_witness :
  vm_state (snd (run (TimeDrive 10 20 30 5) Sim.busy)) = [8; 7]
  /\ forallb is_driver_event (emitted (run (TimeDrive 10 20 30 5)) Sim.busy) = true.
Proof.
  destruct (driver_side_leaves_runtime (L:=driver) (R:=runtime)
              (TimeDrive 10 20 30 5) Sim.busy eq_refl) as [H1 [_ [_ [_ H5]]]].
  split; [exact H1 | exact H5].
Defined.

Lemma driver_constructed_at_most_once_witness :
  let b := snd (run_all [InitOmniDriveBase 4 20 1 2 3;
                         InitMecanumDriveBase 4 20 30 1 2 3 4;
                         InitOmniDriveBase 4 20 1 2 3] Sim.fresh) in
  (constructions (trace b) <= 1)%nat.
Proof.
  intros b.
  assert (Rb : reachable b)
    by (exists [], [InitOmniDriveBase 4 20 1 2 3;
                    InitMecanumDriveBase 4 20 30 1 2 3 4;
                    InitOmniDriveBase 4 20 1 2 3]; reflexivity).
  exact (proj1 (driver_constructed_at_most_once (L:=driver) (R:=runtime) b Rb)).
Defined.

Lemma driver_persists_witness :
  g_amcu (snd (run_all [Stop; NotifyLimitSwitchTriggered Unattachable; ResetEncoder 1]
                 Sim.busy)) <> None.
Proof.
  apply (driver_persists (L:=driver) (R:=runtime)). discriminate.
Defined.

Lemma no_driver_traffic_before_init_witness :
  let os := [SetSpeed 1 50; RegisterLimitSwitchCallback tt (Some 7); OnLoad (Some tt);
             NotifyLimitSwitchTriggered Attached; GetEncoder 1; Stop] in
  g_amcu (snd (run_all os Sim.fresh)) = None
  /\ driver_events (emitted (run_all os) Sim.fresh) = []
  /\ constructions (emitted (run_all os) Sim.fresh) = 0%nat.
Proof.
  intros os.
  apply (no_driver_traffic_before_init (L:=driver) (R:=runtime) os Sim.fresh);
    reflexivity.
Defined.

Lemma references_accounted_witness :
  let os := [RegisterLimitSwitchCallback tt (Some 7);
             RegisterLimitSwitchCallback tt (Some 9);
             RegisterDriveActionCallback tt (Some 7);
             RegisterLimitSwitchCallback tt None] in
  let b := snd (run_all os Sim.fresh) in
  count (Z.eqb 7) (acquired (trace b)) =
  (count (Z.eqb 7) (released (trace b)) + count (Z.eqb 7) (held b))%nat.
Proof.
  intros os b.
  apply (references_accounted (L:=driver) (R:=runtime) b (Z.eqb 7)).
  exists [], os. reflexivity.
Defined.

Lemma in_range_speed_passes_witness :
  emitted (Java_com_frc_amcu_AMCUWrapper_setSpeedNative 1 (-100)) Sim.busy =
    [EvDriver (setSpeed 1 (-100))]
  /\ emitted (Java_com_frc_amcu_AMCUWrapper_setRPMNative 1 (-100)) Sim.busy =
    [EvDriver (setRPM 1 (-100))].
Proof.
  apply (in_range_speed_passes (L:=driver) (R:=runtime) 1 (-100) Sim.busy []);
    [reflexivity | lia].
Defined.

Lemma overflowing_speed_turns_negative_witness :
  emitted (Java_com_frc_amcu_AMCUWrapper_setSpeedNative 1 200) Sim.busy =
    [EvDriver (setSpeed 1 (-56))].
Proof.
  exact (proj1 (overflowing_speed_turns_negative (L:=driver) (R:=runtime)
                  1 200 Sim.busy [] eq_refl ltac:(lia))).
Defined.

Lemma reads_return_driver_value_witness :
  fst (Java_com_frc_amcu_AMCUWrapper_getEncoderNative 1 Sim.busy) = Ret 0
  /\ fst (Java_com_frc_amcu_AMCUWrapper_getRPMNative 1 Sim.busy) = Ret 0.
Proof.
  destruct (reads_return_driver_value (L:=driver) (R:=runtime) 1 Sim.busy [] eq_refl)
    as [[H1 _] [H2 _]].
  split; [exact H1 | exact H2].
Defined.

Lemma in_range_geometry_passes_witness :
  member_calls (emitted
    (Java_com_frc_amcu_AMCUWrapper_initOmniDriveBaseNative 255 65535 1 2 3) Sim.fresh) =
    [EvDriver (initOmniDriveBase 255 65535 1 2 3)]
  /\ member_calls (emitted
    (Java_com_frc_amcu_AMCUWrapper_initDifferentialDriveBase4WheelNative
       255 65535 1 2 3 4) Sim.busy) =
    [EvDriver (initDifferentialDriveBase4Wheel 255 65535 1 2 3 4)].
Proof.
  split.
  - exact (proj1 (in_range_geometry_passes (L:=driver) (R:=runtime)
                    255 65535 0 1 2 3 4 Sim.fresh
                    ltac:(lia) ltac:(lia) ltac:(lia))).
  - exact (proj2 (proj2 (proj2 (in_range_geometry_passes (L:=driver) (R:=runtime)
                    255 65535 0 1 2 3 4 Sim.busy
                    ltac:(lia) ltac:(lia) ltac:(lia))))).
Defined.


Lemma driveDistance_arguments_witness :
  emitted (Java_com_frc_amcu_AMCUWrapper_driveDistanceNative 2 3 (-90)) Sim.busy =
    [EvDriver (driveDistance 2 3 65446)].
Proof.
  apply (driveDistance_arguments (L:=driver) (R:=runtime) 2 3 (-90) Sim.busy []
           eq_refl ltac:(lia) ltac:(lia)).
  lia.
Defined.

Lemma register_releases_what_slot_held_witness :
  released (emitted (register (R:=runtime) DriveAction tt None) Sim.busy) = [8]
  /\ register (R:=runtime) LimitSwitch tt None Sim.fresh = (Ret tt, Sim.fresh).
Proof.
  split.
  - exact (proj1 (register_releases_what_slot_held (L:=driver) (R:=runtime)
                    DriveAction tt None Sim.busy)).
  - exact (proj2 (proj2 (register_releases_what_slot_held (L:=driver) (R:=runtime)
                    LimitSwitch tt None Sim.fresh)) eq_refl eq_refl).
Defined.

Lemma failed_replacement_drops_listener_witness :
  let b1 := snd (register (R:=SimFull.runtime) LimitSwitch tt (Some 9) SimFull.holding) in
  callback_in LimitSwitch b1 = None
  /\ released (emitted (register (R:=SimFull.runtime) LimitSwitch tt (Some 9))
                SimFull.holding) = [7]
  /\ notify (R:=SimFull.runtime) LimitSwitch Attached b1 = (Ret tt, b1).
Proof.
  apply (failed_replacement_drops_listener (L:=driver) (R:=SimFull.runtime)
           LimitSwitch tt 9 7 Attached SimFull.holding); reflexivity.
Defined.

Lemma getJNIEnv_attaches_only_detached_witness :
  getJNIEnv (R:=runtime) Attached Sim.busy =
    (Ret (Some tt), log (EvJni (J_GetEnv tt Attached)) Sim.busy)
  /\ getJNIEnv (R:=runtime) Detached Sim.fresh = (Ret None, Sim.fresh).
Proof.
  destruct (getJNIEnv_attaches_only_detached (L:=driver) (R:=runtime) Attached Sim.busy)
    as [_ [_ H]].
  destruct (getJNIEnv_attaches_only_detached (L:=driver) (R:=runtime) Detached Sim.fresh)
    as [_ [H0 _]].
  split.
  - exact (proj1 (H tt eq_refl ltac:(discriminate))).
  - exact (H0 eq_refl).
Defined.

Lemma onload_sets_runtime_for_delivery_witness :
  let b := snd (run_all [RegisterLimitSwitchCallback tt (Some 7)] Sim.fresh) in
  fst (JNI_OnLoad (Some tt) b) = Ret 65542
  /\ exists rest,
       emitted (notify (R:=runtime) LimitSwitch Attached) (snd (JNI_OnLoad (Some tt) b)) =
       EvJni (J_GetEnv tt Attached) :: rest.
Proof.
  intros b.
  destruct (onload_sets_runtime_for_delivery (L:=driver) (R:=runtime)
              LimitSwitch Attached tt 7 b eq_refl) as [H1 [_ H3]].
  split; [exact H1 | exact H3].
Defined.
